(** * asset_advisor: the analysis and rebalancing core of portfolio_ai

    A shallow embedding of [portfolio_ai.core.models],
    [portfolio_ai.utils.metrics], [portfolio_ai.core.rebalancer] and
    [portfolio_ai.core.analyzer], and the properties of the
    specification that concern them.

    Numbers.  A Python [float] that holds portfolio data (a quantity, a
    price, a weight, a money amount) is a rational of [Q]: finite, with
    exact arithmetic.  Rounding, overflow and signed zeros of binary64
    are outside the model.  Python's own [/] raises
    [ZeroDivisionError] on a zero divisor ([truediv]); the divisions
    that numpy and pandas perform do not raise and yield [nan] or an
    infinity instead, so the values they compute live in [npfloat].
    Equality of rationals is [Qeq], written [==].  [Binary64] checks
    on the floats of the machine the two values of [total_return] that
    the specification wants exact. *)

From Stdlib Require Import ZArith QArith Qabs Qround String List Bool Lia Lqa.
From Stdlib Require PrimFloat.
Import ListNotations.
Open Scope string_scope.
Open Scope list_scope.
Open Scope Q_scope.

(** ** Exceptions and results *)

Inductive exn : Type :=
| ZeroDivisionError
| ValueError (msg : string).

Inductive result (A : Type) : Type :=
| Ok (a : A)
| Raise (e : exn).

Arguments Ok {A} a.
Arguments Raise {A} e.

Definition bind {A B : Type} (m : result A) (k : A -> result B) : result B :=
  match m with
  | Ok a => k a
  | Raise e => Raise e
  end.

Notation "x <- m ;; k" := (bind m (fun x => k))
  (at level 61, m at next level, right associativity).

Definition raises {A : Type} (m : result A) : Prop :=
  exists e, m = Raise e.

Definition returns {A : Type} (m : result A) : Prop :=
  exists a, m = Ok a.

(** ** Python float operations on finite values *)

Definition Qlt_bool (x y : Q) : bool := negb (Qle_bool y x).

(** [x / y] of two Python floats. *)
Definition truediv (x y : Q) : result Q :=
  if Qeq_bool y 0 then Raise ZeroDivisionError else Ok (x / y).

(** [sum(...)] of Python: a left fold that starts from 0. *)
Definition sum (xs : list Q) : Q := fold_left Qplus xs 0.

(** [d.get(k, default)] on a dict given by its items; the first item
    of a key is the one the dict holds. *)
Fixpoint dict_get {V : Type} (d : list (string * V)) (k : string) (default : V) : V :=
  match d with
  | [] => default
  | (k', v) :: d' => if String.eqb k' k then v else dict_get d' k default
  end.

(** ** numpy float64 values

    The values that numpy and pandas compute: a finite rational, an
    infinity or [nan].  Arithmetic follows IEEE 754 without rounding:
    a division by zero yields an infinity or [nan] and never raises,
    and every comparison with [nan] is false. *)

Inductive npfloat : Type :=
| Fin (q : Q)
| PInf
| NInf
| NaN.

Definition is_nan (x : npfloat) : bool :=
  match x with
  | NaN => true
  | _ => false
  end.

Definition inf_of_sign (c : comparison) : npfloat :=
  match c with
  | Gt => PInf
  | Lt => NInf
  | Eq => NaN
  end.

Definition sign_mul (a b : comparison) : comparison :=
  match a, b with
  | Eq, _ | _, Eq => Eq
  | Gt, Gt | Lt, Lt => Gt
  | Gt, Lt | Lt, Gt => Lt
  end.

(** The sign of a value that is not [nan]. *)
Definition fsign (x : npfloat) : comparison :=
  match x with
  | Fin q => q ?= 0
  | PInf => Gt
  | NInf => Lt
  | NaN => Eq
  end.

Definition fneg (x : npfloat) : npfloat :=
  match x with
  | Fin q => Fin (- q)
  | PInf => NInf
  | NInf => PInf
  | NaN => NaN
  end.

Definition fadd (x y : npfloat) : npfloat :=
  match x, y with
  | NaN, _ | _, NaN => NaN
  | Fin a, Fin b => Fin (a + b)
  | PInf, NInf | NInf, PInf => NaN
  | PInf, _ | _, PInf => PInf
  | NInf, _ | _, NInf => NInf
  end.

Definition fsub (x y : npfloat) : npfloat := fadd x (fneg y).

Definition fmul (x y : npfloat) : npfloat :=
  match x, y with
  | NaN, _ | _, NaN => NaN
  | Fin a, Fin b => Fin (a * b)
  | _, _ => inf_of_sign (sign_mul (fsign x) (fsign y))
  end.

Definition fdiv (x y : npfloat) : npfloat :=
  match x, y with
  | NaN, _ | _, NaN => NaN
  | Fin a, Fin b => if Qeq_bool b 0 then inf_of_sign (a ?= 0) else Fin (a / b)
  | Fin _, _ => Fin 0
  | _, Fin b => inf_of_sign (sign_mul (fsign x) (if Qlt_bool b 0 then Lt else Gt))
  | _, _ => NaN
  end.

Definition feqb (x y : npfloat) : bool :=
  match x, y with
  | Fin a, Fin b => Qeq_bool a b
  | PInf, PInf | NInf, NInf => true
  | _, _ => false
  end.

Definition fltb (x y : npfloat) : bool :=
  match x, y with
  | NaN, _ | _, NaN => false
  | Fin a, Fin b => Qlt_bool a b
  | NInf, NInf | PInf, _ | _, NInf => false
  | _, _ => true
  end.

(** Equality of two computed values up to the representation of the
    rational. *)
Definition feq (x y : npfloat) : Prop :=
  match x, y with
  | Fin a, Fin b => a == b
  | PInf, PInf | NInf, NInf | NaN, NaN => True
  | _, _ => False
  end.

(** [x / y] of two Python floats that may be infinite or [nan]: it
    raises on a zero divisor like [truediv]. *)
Definition truediv_f (x y : npfloat) : result npfloat :=
  if feqb y (Fin 0) then Raise ZeroDivisionError else Ok (fdiv x y).

Definition fsum (xs : list npfloat) : npfloat := fold_left fadd xs (Fin 0).

Definition of_nat (n : nat) : npfloat := Fin (inject_Z (Z.of_nat n)).

(** ** core/models.py *)

Module Holding.
Record t : Type := make {
    ticker : string;
    name : string;
    quantity : Q;
    avg_cost : Q;
    currency : string
  }.

Definition total_cost (self : t) : Q := quantity self * avg_cost self.
End Holding.

Module HoldingAnalysis.
Record t : Type := make {
    ticker : string;
    name : string;
    quantity : Q;
    avg_cost : Q;
    current_price : Q;
    market_value : Q;
    weight_pct : Q;
    return_pct : Q;
    sector : string
  }.
End HoldingAnalysis.

Module Portfolio.
Record t : Type := make {
    name : string;
    holdings : list Holding.t;
    currency : string
  }.

Definition total_cost (self : t) : Q :=
    sum (map Holding.total_cost (holdings self)).
End Portfolio.

Module AnalysisResult.
Record t : Type := make {
  portfolio_name : string;
  total_value : Q;
  total_cost : Q;
  total_return_pct : Q;
  annualized_return_pct : Q;
  volatility_pct : npfloat;
  sharpe_ratio : npfloat;
  max_drawdown_pct : npfloat;
  beta : npfloat;
  alpha_pct : npfloat;
  currency : string;
  holdings_analysis : list HoldingAnalysis.t;
  benchmark_ticker : string;
  ai_insights : option string
}.

End AnalysisResult.

(** ** core/rebalancer.py *)

Module Rebalancer.

Module RebalanceOrder.
Record t : Type := make {
      ticker : string;
      name : string;
      action : string;
      quantity : Z;
      current_price : Q;
      estimated_cost : Q
    }.
End RebalanceOrder.

Module RebalanceResult.
Record t : Type := make {
      orders : list RebalanceOrder.t;
      total_buy_cost : Q;
      total_sell_proceeds : Q;
      net_cost : Q;
      estimated_tax : Q
    }.
End RebalanceResult.

(** The four local variables that the loop of [rebalance] updates. *)
Record locals : Type := mk_locals {
    orders : list RebalanceOrder.t;
    total_buy : Q;
    total_sell : Q;
    estimated_tax : Q
  }.

Definition initial : locals := mk_locals [] 0 0 0.

Section Rebalance.
Variable target_weights : list (string * Q).
Variables total_value tolerance tax_rate : Q.

Definition target_pct (holding : HoldingAnalysis.t) : Q :=
      dict_get target_weights (HoldingAnalysis.ticker holding) 0.

Definition diff_pct (holding : HoldingAnalysis.t) : Q :=
      target_pct holding - HoldingAnalysis.weight_pct holding.

Definition diff_value (holding : HoldingAnalysis.t) : Q :=
      total_value * (target_pct holding / 100) - HoldingAnalysis.market_value holding.

(** One iteration of the [for holding in holdings] loop. *)
Definition loop_body (st : locals) (holding : HoldingAnalysis.t) : result locals :=
      if Qle_bool (Qabs (diff_pct holding)) tolerance then Ok st
      else
        q <- truediv (Qabs (diff_value holding)) (HoldingAnalysis.current_price holding) ;;
        let quantity := Qfloor q in
        if (quantity =? 0)%Z then Ok st
        else if Qlt_bool 0 (diff_value holding) then
          let cost := inject_Z quantity * HoldingAnalysis.current_price holding in
          Ok (mk_locals
                (orders st ++
                 [RebalanceOrder.make (HoldingAnalysis.ticker holding)
                    (HoldingAnalysis.name holding) "BUY" quantity
                    (HoldingAnalysis.current_price holding) cost])
                (total_buy st + cost)
                (total_sell st)
                (estimated_tax st))
        else
          let proceeds := inject_Z quantity * HoldingAnalysis.current_price holding in
          let gain_per_share :=
            HoldingAnalysis.current_price holding - HoldingAnalysis.avg_cost holding in
          let estimated_tax' :=
            if Qlt_bool 0 gain_per_share && Qlt_bool 0 tax_rate
            then estimated_tax st + inject_Z quantity * gain_per_share * tax_rate
            else estimated_tax st in
          Ok (mk_locals
                (orders st ++
                 [RebalanceOrder.make (HoldingAnalysis.ticker holding)
                    (HoldingAnalysis.name holding) "SELL" quantity
                    (HoldingAnalysis.current_price holding) (- proceeds)])
                (total_buy st)
                (total_sell st + proceeds)
                estimated_tax').

Fixpoint loop (st : locals) (holdings : list HoldingAnalysis.t) : result locals :=
      match holdings with
      | [] => Ok st
      | holding :: rest => st' <- loop_body st holding ;; loop st' rest
      end.

Definition rebalance (holdings : list HoldingAnalysis.t) : result RebalanceResult.t :=
      st <- loop initial holdings ;;
      Ok (RebalanceResult.make (orders st) (total_buy st) (total_sell st)
            (total_buy st - total_sell st) (estimated_tax st)).

End Rebalance.

End Rebalancer.

(** ** utils/metrics.py

    A [pd.Series] of returns or prices is the list of its values.
    [np.sqrt] on rationals and the float power [**] are parameters:
    neither is rational-valued, and nothing below depends on more than
    their being functions. *)

Module Metrics.

Fixpoint map2 {A B C : Type} (f : A -> B -> C) (xs : list A) (ys : list B) : list C :=
  match xs, ys with
  | x :: xs', y :: ys' => f x y :: map2 f xs' ys'
  | _, _ => []
  end.

Definition total_return (initial final : Q) : result Q :=
  if Qle_bool initial 0 then Raise (ValueError "Initial value must be positive")
  else q <- truediv (final - initial) initial ;; Ok (q * 100).

(** The values pandas reduces over: [skipna] leaves the [nan] out. *)
Definition notna (xs : list npfloat) : list npfloat :=
  filter (fun x => negb (is_nan x)) xs.

(** [Series.mean()]. *)
Definition mean (xs : list npfloat) : npfloat :=
  fdiv (fsum (notna xs)) (of_nat (length (notna xs))).

(** [Series.min()]. *)
Definition min (xs : list npfloat) : npfloat :=
  match notna xs with
  | [] => NaN
  | x :: rest => fold_left (fun m y => if fltb y m then y else m) rest x
  end.

(** [Series.cummax()]: the running maximum of the values seen so far,
    [nan] where the value is [nan]. *)
Fixpoint cummax_from (m : option npfloat) (xs : list npfloat) : list npfloat :=
  match xs with
  | [] => []
  | x :: rest =>
      if is_nan x then NaN :: cummax_from m rest
      else
        let m' := match m with
                  | None => x
                  | Some y => if fltb y x then x else y
                  end in
        m' :: cummax_from (Some m') rest
  end.

Definition cummax (xs : list npfloat) : list npfloat := cummax_from None xs.

(** [np.cov(m, y)] of two rows of one length: the entries of the
    2 x 2 matrix, with [ddof = 1] and the factor set to 0 when it is
    not positive. *)
Definition np_cov (m y : list npfloat) : (npfloat * npfloat) * (npfloat * npfloat) :=
  let n := length m in
  let avg_m := fdiv (fsum m) (of_nat n) in
  let avg_y := fdiv (fsum y) (of_nat n) in
  let fact := of_nat (n - 1) in
  let X0 := map (fun v => fsub v avg_m) m in
  let X1 := map (fun v => fsub v avg_y) y in
  let c (a b : list npfloat) := fmul (fsum (map2 fmul a b)) (fdiv (Fin 1) fact) in
  ((c X0 X0, c X0 X1), (c X1 X0, c X1 X1)).

Section Float_functions.
Variable sqrtQ : Q -> Q.
Variable powQ : Q -> Q -> Q.

Definition np_sqrt (x : npfloat) : npfloat :=
  match x with
  | Fin q => if Qlt_bool q 0 then NaN else Fin (sqrtQ q)
  | PInf => PInf
  | _ => NaN
  end.

(** [Series.std()]: the sample deviation ([ddof = 1]), [nan] when
    fewer than two values are left. *)
Definition std (xs : list npfloat) : npfloat :=
  let values := notna xs in
  let count := length values in
  if (count <=? 1)%nat then NaN
  else
    let avg := fdiv (fsum values) (of_nat count) in
    let sqr := map (fun v => fmul (fsub avg v) (fsub avg v)) values in
    np_sqrt (fdiv (fsum sqr) (of_nat (count - 1))).

Definition annualized_return (total_return_pct years : Q) : result Q :=
  if Qle_bool years 0 then Raise (ValueError "Years must be positive")
  else
    e <- truediv 1 years ;;
    Ok ((powQ (1 + total_return_pct / 100) e - 1) * 100).

Definition volatility (returns : list npfloat) (annualize : bool) : npfloat :=
  match returns with
  | [] => Fin 0
  | _ =>
      let std := std returns in
      if annualize then fmul std (np_sqrt (Fin 252)) else std
  end.

Definition sharpe_ratio (returns : list npfloat) (risk_free_rate : Q) : result npfloat :=
  match returns with
  | [] => Ok (Fin 0)
  | _ =>
      let vol := volatility returns true in
      if fltb vol (Fin (1 # 10000000000)) then Ok (Fin 0)
      else
        let mean_return := fmul (mean returns) (Fin 252) in
        truediv_f (fsub mean_return (Fin risk_free_rate)) vol
  end.

End Float_functions.

Definition max_drawdown (prices : list npfloat) : npfloat :=
  match prices with
  | [] => Fin 0
  | _ =>
      let cummax := cummax prices in
      let drawdown := map2 (fun p c => fdiv (fsub p c) c) prices cummax in
      fmul (min drawdown) (Fin 100)
  end.

Definition beta (portfolio_returns benchmark_returns : list npfloat) : npfloat :=
  match portfolio_returns, benchmark_returns with
  | [], _ | _, [] => Fin 0
  | _, _ =>
      let min_len := Nat.min (length portfolio_returns) (length benchmark_returns) in
      let p := firstn min_len portfolio_returns in
      let b := firstn min_len benchmark_returns in
      let cov := np_cov p b in
      let var_benchmark := snd (snd cov) in
      if feqb var_benchmark (Fin 0) then Fin 0
      else fdiv (snd (fst cov)) var_benchmark
  end.

Definition alpha (portfolio_return benchmark_return beta_value risk_free_rate : npfloat)
  : npfloat :=
  fsub portfolio_return
    (fadd risk_free_rate (fmul beta_value (fsub benchmark_return risk_free_rate))).

End Metrics.

(** ** data/market_data.py

    The provider as the analyzer sees it: a current price that may be
    absent, a sector, and a series of closing prices that may be empty.
    A series is the list of its (index label, value) pairs, the labels
    distinct and in increasing order, the values finite.  The three
    lookups never raise, and the same symbol gets the same answer
    within one analysis. *)

Module MarketDataProvider.
Record t : Type := make {
  get_current_price : string -> option Q;
  get_sector : string -> string;
  get_historical_prices : string -> list (Z * Q)
}.
End MarketDataProvider.

(** ** The pandas operations the analyzer calls *)

Module Pandas.
Import Metrics.

Record DataFrame : Type := mk_frame {
  columns : list string;
  rows : list (Z * list npfloat)
}.

(** [DataFrame.empty] and [Series.empty]. *)
Definition empty (df : DataFrame) : bool :=
  match columns df, rows df with
  | _ :: _, _ :: _ => false
  | _, _ => true
  end.

Definition values {L : Type} (s : list (L * Q)) : list npfloat :=
  map (fun p => Fin (snd p)) s.

(** [d[k] = v] on a dict given by its items: a key keeps the place of
    its first insertion. *)
Fixpoint dict_set {V : Type} (d : list (string * V)) (k : string) (v : V)
  : list (string * V) :=
  match d with
  | [] => [(k, v)]
  | (k', v') :: d' =>
      if String.eqb k' k then (k', v) :: d' else (k', v') :: dict_set d' k v
  end.

(** [k in d]. *)
Definition dict_mem {V : Type} (d : list (string * V)) (k : string) : bool :=
  existsb (fun kv => String.eqb (fst kv) k) d.

Fixpoint loc (s : list (Z * Q)) (label : Z) : option Q :=
  match s with
  | [] => None
  | (l, v) :: s' => if (l =? label)%Z then Some v else loc s' label
  end.

(** The row of a label, when every column has a value there. *)
Fixpoint row_at (data : list (string * list (Z * Q))) (label : Z) : option (list npfloat) :=
  match data with
  | [] => Some []
  | (_, s) :: data' =>
      match loc s label, row_at data' label with
      | Some v, Some vs => Some (Fin v :: vs)
      | _, _ => None
      end
  end.

(** [pd.DataFrame(data).dropna()] for a dict of series: one column per
    key, in the order of the keys; the frame is indexed by the union of
    the labels, and after [dropna] the rows left are those of the
    labels that every series has. *)
Definition frame_dropna (data : list (string * list (Z * Q))) : DataFrame :=
  mk_frame (map fst data)
    match data with
    | [] => []
    | (_, s0) :: _ =>
        flat_map (fun lv => match row_at data (fst lv) with
                            | Some r => [(fst lv, r)]
                            | None => []
                            end) s0
    end.

(** [Series.pct_change()] on the values: [nan] first, then
    [x_i / x_(i-1) - 1]. *)
Definition pct_change (xs : list npfloat) : list npfloat :=
  match xs with
  | [] => []
  | _ :: rest => NaN :: map2 (fun prev cur => fsub (fdiv cur prev) (Fin 1)) xs rest
  end.

(** [Series.dropna()] on the values. *)
Definition dropna (xs : list npfloat) : list npfloat := notna xs.

(** [DataFrame.pct_change().dropna()]: column by column, then the rows
    that hold a [nan] are dropped, the first row among them. *)
Definition frame_pct_change_dropna (df : DataFrame) : DataFrame :=
  mk_frame (columns df)
    match rows df with
    | [] => []
    | _ :: rest =>
        filter (fun r => negb (existsb is_nan (snd r)))
          (map2 (fun prev cur =>
                   (fst cur,
                    map2 (fun a b => fsub (fdiv b a) (Fin 1)) (snd prev) (snd cur)))
             (rows df) rest)
    end.

(** [DataFrame.dot(weights)] for an array of weights: the number of
    columns has to be the length of the array. *)
Definition dot (df : DataFrame) (weights : list npfloat) : result (list npfloat) :=
  if (List.length (columns df) =? List.length weights)%nat
  then Ok (map (fun r => fsum (map2 fmul (snd r) weights)) (rows df))
  else Raise (ValueError "Dot product shape mismatch").

End Pandas.

(** ** core/analyzer.py *)

Module Analyzer.
Import Metrics Pandas MarketDataProvider.

Record _HoldingData : Type := mk_data {
  ticker : string;
  name : string;
  quantity : Q;
  avg_cost : Q;
  current_price : Q;
  market_value : Q;
  sector : string
}.

(** A comprehension whose element expression may raise. *)
Fixpoint traverse {A B : Type} (f : A -> result B) (xs : list A) : result (list B) :=
  match xs with
  | [] => Ok []
  | x :: rest => y <- f x ;; ys <- traverse f rest ;; Ok (y :: ys)
  end.

Section Analyzer.
Variable sqrtQ : Q -> Q.
Variable powQ : Q -> Q -> Q.

(** The analyzer holds the provider and nothing else. *)
Variable self : MarketDataProvider.t.

Fixpoint gather (holdings : list Holding.t) : list _HoldingData :=
  match holdings with
  | [] => []
  | holding :: rest =>
      match get_current_price self (Holding.ticker holding) with
      | None => gather rest
      | Some price =>
          mk_data (Holding.ticker holding) (Holding.name holding)
            (Holding.quantity holding) (Holding.avg_cost holding) price
            (Holding.quantity holding * price)
            (get_sector self (Holding.ticker holding))
          :: gather rest
      end
  end.

Definition _gather_holdings_data (portfolio : Portfolio.t) : list _HoldingData :=
  gather (Portfolio.holdings portfolio).

(** The loop that fills [all_prices]. *)
Fixpoint collect_prices (holdings_analysis : list HoldingAnalysis.t)
  (all_prices : list (string * list (Z * Q))) : list (string * list (Z * Q)) :=
  match holdings_analysis with
  | [] => all_prices
  | h :: rest =>
      match get_historical_prices self (HoldingAnalysis.ticker h) with
      | [] => collect_prices rest all_prices
      | prices => collect_prices rest (dict_set all_prices (HoldingAnalysis.ticker h) prices)
      end
  end.

Definition weights_of (holdings_analysis : list HoldingAnalysis.t)
  (all_prices : list (string * list (Z * Q))) : list npfloat :=
  map (fun h => Fin (HoldingAnalysis.weight_pct h / 100))
    (filter (fun h => dict_mem all_prices (HoldingAnalysis.ticker h)) holdings_analysis).

Definition _compute_portfolio_returns (holdings_analysis : list HoldingAnalysis.t)
  (portfolio : Portfolio.t) : result (list npfloat) :=
  match collect_prices holdings_analysis [] with
  | [] => Ok []
  | all_prices =>
      let price_df := frame_dropna all_prices in
      if empty price_df then Ok []
      else
        let weights := weights_of holdings_analysis all_prices in
        let returns_df := frame_pct_change_dropna price_df in
        if empty returns_df then Ok []
        else dot returns_df weights
  end.

Definition _get_benchmark_returns (benchmark : string) : list npfloat :=
  match get_historical_prices self benchmark with
  | [] => []
  | prices => dropna (pct_change (values prices))
  end.

Definition _compute_max_drawdown (holdings_analysis : list HoldingAnalysis.t)
  (portfolio : Portfolio.t) : result npfloat :=
  match collect_prices holdings_analysis [] with
  | [] => Ok (Fin 0)
  | all_prices =>
      let price_df := frame_dropna all_prices in
      if empty price_df then Ok (Fin 0)
      else
        let weights := weights_of holdings_analysis all_prices in
        portfolio_value <- dot price_df weights ;;
        Ok (max_drawdown portfolio_value)
  end.

Definition _compute_benchmark_total_return (benchmark : string) : result Q :=
  let prices := get_historical_prices self benchmark in
  match prices with
  | [] => Ok 0
  | first :: _ =>
      if (List.length prices <? 2)%nat then Ok 0
      else total_return (snd first) (snd (last prices first))
  end.

Definition _empty_result (portfolio : Portfolio.t) (benchmark : string) : AnalysisResult.t :=
  AnalysisResult.make (Portfolio.name portfolio) 0 (Portfolio.total_cost portfolio) 0 0
    (Fin 0) (Fin 0) (Fin 0) (Fin 0) (Fin 0)
    (Portfolio.currency portfolio) [] benchmark None.

(** The element of the comprehension that builds [holdings_analysis]. *)
Definition analysis_of (total_value : Q) (h : _HoldingData) : result HoldingAnalysis.t :=
  weight_pct <- (if Qlt_bool 0 total_value
                 then q <- truediv (market_value h) total_value ;; Ok (q * 100)
                 else Ok 0) ;;
  r <- truediv (current_price h - avg_cost h) (avg_cost h) ;;
  Ok (HoldingAnalysis.make (ticker h) (name h) (quantity h) (avg_cost h)
        (current_price h) (market_value h) weight_pct (r * 100) (sector h)).

Definition analyze (portfolio : Portfolio.t) (benchmark : string) : result AnalysisResult.t :=
  match _gather_holdings_data portfolio with
  | [] => Ok (_empty_result portfolio benchmark)
  | holdings_data =>
      let total_value := sum (map market_value holdings_data) in
      let total_cost := sum (map (fun h => avg_cost h * quantity h) holdings_data) in
      holdings_analysis <- traverse (analysis_of total_value) holdings_data ;;
      portfolio_returns <- _compute_portfolio_returns holdings_analysis portfolio ;;
      let benchmark_returns := _get_benchmark_returns benchmark in
      total_ret <- total_return total_cost total_value ;;
      ann_ret <- annualized_return powQ total_ret 1 ;;
      let vol := volatility sqrtQ portfolio_returns true in
      sr <- sharpe_ratio sqrtQ portfolio_returns (2 # 100) ;;
      mdd <- _compute_max_drawdown holdings_analysis portfolio ;;
      let b := beta portfolio_returns benchmark_returns in
      benchmark_total_ret <- _compute_benchmark_total_return benchmark ;;
      let a := alpha (Fin ann_ret) (Fin benchmark_total_ret) b (Fin (2 # 100)) in
      Ok (AnalysisResult.make (Portfolio.name portfolio) total_value total_cost
            total_ret ann_ret (fmul vol (Fin 100)) sr mdd b a
            (Portfolio.currency portfolio) holdings_analysis benchmark None)
  end.

End Analyzer.

End Analyzer.

(** ** utils/metrics.py in binary64

    [total_return] once more, on the floats of the machine, to check
    that the two values the specification wants exact are exact under
    rounding too. *)

Module Binary64.
Import PrimFloat.

Definition total_return (initial final : float) : result float :=
  if leb initial 0%float then Raise (ValueError "Initial value must be positive")
  else Ok (((final - initial) / initial) * 100)%float.

End Binary64.

(** ** Vocabulary of the specification of the rebalancer *)

Definition within_tolerance (target_weights : list (string * Q)) (tolerance : Q)
  (holding : HoldingAnalysis.t) : Prop :=
  Qabs (Rebalancer.diff_pct target_weights holding) <= tolerance.

Definition shares (target_weights : list (string * Q)) (total_value : Q)
  (holding : HoldingAnalysis.t) : Z :=
  Qfloor (Qabs (Rebalancer.diff_value target_weights total_value holding)
          / HoldingAnalysis.current_price holding).

Definition emits_order (target_weights : list (string * Q)) (total_value tolerance : Q)
  (holding : HoldingAnalysis.t) : bool :=
  negb (Qle_bool (Qabs (Rebalancer.diff_pct target_weights holding)) tolerance)
  && negb (shares target_weights total_value holding =? 0)%Z.

Definition order_of (target_weights : list (string * Q)) (total_value : Q)
  (holding : HoldingAnalysis.t) (order : Rebalancer.RebalanceOrder.t) : Prop :=
  Rebalancer.RebalanceOrder.ticker order = HoldingAnalysis.ticker holding /\
  Rebalancer.RebalanceOrder.name order = HoldingAnalysis.name holding /\
  Rebalancer.RebalanceOrder.current_price order = HoldingAnalysis.current_price holding /\
  Rebalancer.RebalanceOrder.quantity order = shares target_weights total_value holding /\
  Rebalancer.RebalanceOrder.action order =
    (if Qlt_bool 0 (Rebalancer.diff_value target_weights total_value holding)
     then "BUY" else "SELL").


Definition is_buy (order : Rebalancer.RebalanceOrder.t) : bool :=
  String.eqb (Rebalancer.RebalanceOrder.action order) "BUY".

Definition is_sell (order : Rebalancer.RebalanceOrder.t) : bool :=
  String.eqb (Rebalancer.RebalanceOrder.action order) "SELL".

(** The target map that asks for the weights the holdings have. *)
Definition current_weights (holdings : list HoldingAnalysis.t) : list (string * Q) :=
  map (fun h => (HoldingAnalysis.ticker h, HoldingAnalysis.weight_pct h)) holdings.

(** The order a holding gets, with its signed cost. *)
Definition emitted (target_weights : list (string * Q)) (total_value : Q)
  (h : HoldingAnalysis.t) (o : Rebalancer.RebalanceOrder.t) : Prop :=
  order_of target_weights total_value h o
  /\ ~ HoldingAnalysis.current_price h == 0
  /\ Rebalancer.RebalanceOrder.estimated_cost o =
       (if Qlt_bool 0 (Rebalancer.diff_value target_weights total_value h)
        then inject_Z (shares target_weights total_value h)
             * HoldingAnalysis.current_price h
        else - (inject_Z (shares target_weights total_value h)
                * HoldingAnalysis.current_price h)).

(** ** Vocabulary of the specification of the metrics *)

Definition deviations (n : nat) (xs : list Q) : list Q :=
  map (fun v => v - sum xs / inject_Z (Z.of_nat n)) xs.

Definition covariance (xs ys : list Q) : Q :=
  let n := List.length xs in
  sum (Metrics.map2 Qmult (deviations n xs) (deviations n ys))
  / inject_Z (Z.of_nat (n - 1)).

Definition nonconstant (xs : list Q) : Prop :=
  exists a b, In a xs /\ In b xs /\ ~ a == b.

(** A series that never falls: each value is at least [m], the one
    before it. *)
Fixpoint never_falls_from (m : Q) (xs : list Q) : Prop :=
  match xs with
  | [] => True
  | x :: rest => m <= x /\ never_falls_from x rest
  end.

Definition nondecreasing (xs : list Q) : Prop :=
  match xs with
  | [] => True
  | x :: rest => never_falls_from x rest
  end.

(** [cummax], the drawdowns and [min] of [max_drawdown] on finite
    values: the running maximum after a maximum [m], the fall of each
    price from it, and the least of a value [m] and a list. *)
Fixpoint running_max (m : Q) (xs : list Q) : list Q :=
  match xs with
  | [] => []
  | x :: rest =>
      let m' := if Qlt_bool m x then x else m in
      m' :: running_max m' rest
  end.

Definition drawdowns (m : Q) (xs : list Q) : list Q :=
  Metrics.map2 (fun p c => (p - c) / c) xs (running_max m xs).

Definition qmin_from (m : Q) (xs : list Q) : Q :=
  fold_left (fun m y => if Qlt_bool y m then y else m) xs m.

(** ** Vocabulary of the specification of the analyzer *)

Definition has_price (self : MarketDataProvider.t) (holding : Holding.t) : bool :=
  match MarketDataProvider.get_current_price self (Holding.ticker holding) with
  | Some _ => true
  | None => false
  end.

Definition has_history (self : MarketDataProvider.t) (h : HoldingAnalysis.t) : bool :=
  match MarketDataProvider.get_historical_prices self (HoldingAnalysis.ticker h) with
  | [] => false
  | _ => true
  end.

(** The day-over-day returns of a series of prices. *)
Definition simple_returns (prices : list Q) : list Q :=
  match prices with
  | [] => []
  | _ :: rest => Metrics.map2 (fun prev cur => cur / prev - 1) prices rest
  end.

(** The price a series has at a label, and whether it has one. *)
Definition price_at (s : list (Z * Q)) (label : Z) : Q :=
  match Pandas.loc s label with
  | Some v => v
  | None => 0
  end.

Definition has_label (s : list (Z * Q)) (label : Z) : bool :=
  match Pandas.loc s label with
  | Some _ => true
  | None => false
  end.

(** The labels of the first series that every series has. *)
Definition common_labels (series : list (list (Z * Q))) : list Z :=
  match series with
  | [] => []
  | s0 :: _ => filter (fun l => forallb (fun s => has_label s l) series) (map fst s0)
  end.

(** The value of the weighted holdings at a label, and their weighted
    return from a label to the next. *)
Definition portfolio_value_at (series : list (list (Z * Q))) (weights : list Q)
  (label : Z) : Q :=
  sum (Metrics.map2 Qmult (map (fun s => price_at s label) series) weights).

Definition portfolio_return_between (series : list (list (Z * Q))) (weights : list Q)
  (prev cur : Z) : Q :=
  sum (Metrics.map2 Qmult
         (map (fun s => price_at s cur / price_at s prev - 1) series) weights).

(** ** Sample data, after the fixtures of the test suite *)

Module Sample.

Definition aapl : HoldingAnalysis.t :=
  HoldingAnalysis.make "AAPL" "Apple Inc." 10 150 175 1750 50 (1667 # 100) "Technology".

Definition msft : HoldingAnalysis.t :=
  HoldingAnalysis.make "MSFT" "Microsoft Corp." 5 300 350 1750 50 (1667 # 100) "Technology".

Definition current_holdings : list HoldingAnalysis.t := [aapl; msft].

Definition target_weights : list (string * Q) := [("AAPL", 40); ("MSFT", 60)].

Definition even_weights : list (string * Q) := [("AAPL", 50); ("MSFT", 50)].

(** A provider that knows AAPL, MSFT and the benchmark SPY, with three
    closing prices each, and nothing else. *)
Definition market : MarketDataProvider.t :=
  MarketDataProvider.make
    (fun symbol =>
       if String.eqb symbol "AAPL" then Some 175
       else if String.eqb symbol "MSFT" then Some 350
       else if String.eqb symbol "SPY" then Some 450
       else None)
    (fun symbol =>
       if String.eqb symbol "AAPL" then "Technology"
       else if String.eqb symbol "MSFT" then "Technology"
       else "Unknown")
    (fun symbol =>
       if String.eqb symbol "AAPL" then [(0%Z, 150); (1%Z, 153); (2%Z, 151)]
       else if String.eqb symbol "MSFT" then [(0%Z, 300); (1%Z, 303); (2%Z, 306)]
       else if String.eqb symbol "SPY" then [(0%Z, 400); (1%Z, 402); (2%Z, 406)]
       else []).

(** A provider that has no price for any symbol. *)
Definition silent_market : MarketDataProvider.t :=
  MarketDataProvider.make (fun _ => None) (fun _ => "Unknown") (fun _ => []).

Definition fake : Holding.t := Holding.make "FAKE" "Fake Corp." 5 100 "USD".

Definition portfolio : Portfolio.t :=
  Portfolio.make "Test Portfolio"
    [Holding.make "AAPL" "Apple Inc." 10 150 "USD";
     Holding.make "MSFT" "Microsoft Corp." 5 300 "USD"]
    "USD".

(** The same with a holding that has no price between the two. *)
Definition partial_portfolio : Portfolio.t :=
  Portfolio.make "Test Portfolio"
    [Holding.make "AAPL" "Apple Inc." 10 150 "USD";
     fake;
     Holding.make "MSFT" "Microsoft Corp." 5 300 "USD"]
    "USD".

(** Two lots of one ticker, and a holding that has no price. *)
Definition two_lots_portfolio : Portfolio.t :=
  Portfolio.make "Test Portfolio"
    [Holding.make "AAPL" "Apple Inc." 10 150 "USD";
     Holding.make "AAPL" "Apple Inc." 5 160 "USD";
     fake]
    "USD".

(** A rational approximation of the square root, to six decimals. *)
Definition sqrtQ (q : Q) : Q :=
  Z.sqrt (Qnum q * Z.pos (Qden q) * 1000000000000) # (Qden q * 1000000).

(** The float power at the exponent 1, the only one [analyze] uses. *)
Definition powQ (x y : Q) : Q := x.

(** A holding whose quote is 0, and targets that ask for a tenth of it. *)
Definition delisted : HoldingAnalysis.t :=
  HoldingAnalysis.make "DELI" "Delisted Corp." 10 20 0 0 0 (-100) "Unknown".

Definition weights_with_delisted : list (string * Q) :=
  [("AAPL", 40); ("DELI", 10); ("MSFT", 50)].

(** A contract quoted below 0. *)
Definition negative : HoldingAnalysis.t :=
  HoldingAnalysis.make "CL" "Crude Oil Future" 10 20 (-5) (-50) 0 (-125) "Energy".

(** A lot that cost nothing. *)
Definition gift : Holding.t := Holding.make "MSFT" "Microsoft Corp." 5 0 "USD".

Definition gift_portfolio : Portfolio.t :=
  Portfolio.make "Test Portfolio"
    [Holding.make "AAPL" "Apple Inc." 10 150 "USD"; gift]
    "USD".

(** The prices of [market] without any history. *)
Definition spot_market : MarketDataProvider.t :=
  MarketDataProvider.make (MarketDataProvider.get_current_price market)
    (MarketDataProvider.get_sector market) (fun _ => []).

(** Closing prices with a peak of 120 followed by 90. *)
Definition closes : list Q := [100; 120; 90; 110].

Definition daily_returns : list Q := [1 # 100; -2 # 100; 3 # 100; -1 # 100; 2 # 100].

End Sample.

(** * Properties *)

(** ** Python float operations *)

Lemma Qlt_bool_iff (x y : Q) : Qlt_bool x y = true <-> x < y.
Proof.
  unfold Qlt_bool. rewrite negb_true_iff. split; intros H.
  - apply Qnot_le_lt. intros Hle. apply Qle_bool_iff in Hle. congruence.
  - destruct (Qle_bool y x) eqn:E; [|reflexivity].
    apply Qle_bool_iff in E. exfalso. lra.
Qed.

Lemma Qlt_bool_false (x y : Q) : Qlt_bool x y = false <-> y <= x.
Proof.
  unfold Qlt_bool. rewrite negb_false_iff. apply Qle_bool_iff.
Qed.

Lemma Qle_bool_false (x y : Q) : Qle_bool x y = false <-> ~ x <= y.
Proof.
  rewrite <- Qle_bool_iff. destruct (Qle_bool x y); split; intros; congruence.
Qed.

Lemma truediv_ok (x y : Q) : ~ y == 0 -> truediv x y = Ok (x / y).
Proof.
  intros H. unfold truediv. destruct (Qeq_bool y 0) eqn:E; [|reflexivity].
  apply Qeq_bool_iff in E. contradiction.
Qed.

Lemma truediv_zero (x y : Q) : y == 0 -> truediv x y = Raise ZeroDivisionError.
Proof.
  intros H. unfold truediv. apply Qeq_bool_iff in H. now rewrite H.
Qed.

Lemma truediv_inv (x y q : Q) : truediv x y = Ok q -> ~ y == 0 /\ q = x / y.
Proof.
  unfold truediv. destruct (Qeq_bool y 0) eqn:E; intros H; inversion H.
  split; [now apply Qeq_bool_neq | reflexivity].
Qed.

Section Rebalancer_facts.
Import Rebalancer.
Variable target_weights : list (string * Q).
Variables total_value tolerance tax_rate : Q.

Abbreviation body := (loop_body target_weights total_value tolerance tax_rate).
Abbreviation run := (loop target_weights total_value tolerance tax_rate).

Lemma dict_get_absent (V : Type) (d : list (string * V)) (k : string) (default : V) :
  ~ In k (map fst d) -> dict_get d k default = default.
Proof.
  induction d as [|[k' v] d IH]; simpl; intros H; [reflexivity|].
  destruct (String.eqb k' k) eqn:E.
  - apply String.eqb_eq in E. tauto.
  - apply IH. tauto.
Qed.

Lemma loop_body_within (st : locals) (h : HoldingAnalysis.t) :
  within_tolerance target_weights tolerance h -> body st h = Ok st.
Proof.
  intros H. unfold loop_body. apply Qle_bool_iff in H.
  unfold within_tolerance in H. now rewrite H.
Qed.

Lemma loop_app (st : locals) (l1 l2 : list HoldingAnalysis.t) :
  run st (l1 ++ l2) = (st' <- run st l1 ;; run st' l2).
Proof.
  revert st. induction l1 as [|h l1 IH]; intros st; simpl; [reflexivity|].
  destruct (body st h); simpl; [apply IH | reflexivity].
Qed.

Lemma loop_within (st : locals) (hs : list HoldingAnalysis.t) :
  Forall (within_tolerance target_weights tolerance) hs -> run st hs = Ok st.
Proof.
  induction 1 as [|h hs Hh _ IH]; simpl; [reflexivity|].
  now rewrite (loop_body_within st h Hh).
Qed.

Lemma loop_ind (I : list HoldingAnalysis.t -> locals -> Prop) :
  (forall done st h st', I done st -> body st h = Ok st' -> I (done ++ [h]) st') ->
  forall hs done st st',
    I done st -> run st hs = Ok st' -> I (done ++ hs) st'.
Proof.
  intros step. induction hs as [|h hs IH]; intros done st st' HI Hrun; simpl in Hrun.
  - inversion Hrun; subst. now rewrite app_nil_r.
  - destruct (body st h) as [st1|e] eqn:E; simpl in Hrun; [|discriminate].
    replace (done ++ h :: hs) with ((done ++ [h]) ++ hs)
      by (now rewrite <- app_assoc).
    eapply IH; [|eassumption]. eapply step; eassumption.
Qed.


Lemma loop_body_returns (st : locals) (h : HoldingAnalysis.t) :
  (~ within_tolerance target_weights tolerance h ->
   ~ HoldingAnalysis.current_price h == 0) ->
  returns (body st h).
Proof.
  intros H. unfold loop_body, returns.
  destruct (Qle_bool _ tolerance) eqn:Eband; [eauto|].
  apply Qle_bool_false in Eband. rewrite truediv_ok by (apply H, Eband). cbn [bind].
  destruct (_ =? 0)%Z; [eauto|].
  destruct (Qlt_bool 0 _); eauto.
Qed.

Lemma loop_returns (st : locals) (hs : list HoldingAnalysis.t) :
  (forall h, In h hs ->
     ~ within_tolerance target_weights tolerance h ->
     ~ HoldingAnalysis.current_price h == 0) ->
  returns (run st hs).
Proof.
  revert st. induction hs as [|h hs IH]; intros st Hprice; cbn [loop].
  - now exists st.
  - destruct (loop_body_returns st h (Hprice h (or_introl eq_refl))) as [st1 ->].
    cbn [bind]. apply IH. intros h' Hin. apply Hprice. now right.
Qed.

Lemma loop_body_raises (st : locals) (h : HoldingAnalysis.t) :
  ~ within_tolerance target_weights tolerance h ->
  HoldingAnalysis.current_price h == 0 ->
  body st h = Raise ZeroDivisionError.
Proof.
  intros Hband Hprice. unfold loop_body.
  apply Qle_bool_false in Hband. rewrite Hband.
  now rewrite truediv_zero.
Qed.



Lemma shares_nonneg (h : HoldingAnalysis.t) :
  0 <= HoldingAnalysis.current_price h ->
  (0 <= shares target_weights total_value h)%Z.
Proof.
  intros Hprice. unfold shares.
  change 0%Z with (Qfloor 0). apply Qfloor_resp_le.
  apply Qmult_le_0_compat; [apply Qabs_nonneg | now apply Qinv_le_0_compat].
Qed.



End Rebalancer_facts.

Lemma sum_snoc (xs : list Q) (x : Q) : sum (xs ++ [x]) = sum xs + x.
Proof. unfold sum. now rewrite fold_left_app. Qed.


Import Rebalancer.

(** C1.  The target percent of a holding is the entry of its ticker in
    the target-weight map, and 0 when the map has no such entry.  A
    holding whose target percent differs from its [weight_pct] by at
    most the tolerance gets no order: its iteration leaves the order
    list and the three totals as they are, so [rebalance] answers as
    if the holding were not in the tuple.  When every holding is
    within tolerance, [rebalance] returns a result, not an error: no
    orders, and every total zero. *)
Theorem rebalance_within_tolerance
  (target_weights : list (string * Q)) (total_value tolerance tax_rate : Q) :
  (forall h, ~ In (HoldingAnalysis.ticker h) (map fst target_weights) ->
     target_pct target_weights h = 0)
  /\ (forall st h, within_tolerance target_weights tolerance h ->
        loop_body target_weights total_value tolerance tax_rate st h = Ok st)
  /\ (forall before h after, within_tolerance target_weights tolerance h ->
        rebalance target_weights total_value tolerance tax_rate (before ++ h :: after)
        = rebalance target_weights total_value tolerance tax_rate (before ++ after))
  /\ (forall hs, Forall (within_tolerance target_weights tolerance) hs ->
        exists res,
          rebalance target_weights total_value tolerance tax_rate hs = Ok res
          /\ RebalanceResult.orders res = []
          /\ RebalanceResult.total_buy_cost res == 0
          /\ RebalanceResult.total_sell_proceeds res == 0
          /\ RebalanceResult.net_cost res == 0
          /\ RebalanceResult.estimated_tax res == 0).
Proof.
  repeat split.
  - intros h H. unfold target_pct. now apply dict_get_absent.
  - intros st h H. now apply loop_body_within.
  - intros before h after H. unfold rebalance. rewrite !loop_app.
    destruct (loop _ _ _ _ initial before) as [st|e]; cbn [bind]; [|reflexivity].
    cbn [loop]. now rewrite (loop_body_within _ total_value _ tax_rate st h H).
  - intros hs H. unfold rebalance.
    rewrite (loop_within _ total_value _ tax_rate initial hs H). cbn [bind].
    eexists. split; [reflexivity|]. cbn. repeat split; reflexivity.
Qed.

Lemma rebalance_within_tolerance_witness :
  Forall (within_tolerance Sample.even_weights 5) Sample.current_holdings
  /\ exists res,
       rebalance Sample.even_weights 3500 5 0 Sample.current_holdings = Ok res
       /\ RebalanceResult.orders res = [].
Proof.
  assert (H : Forall (within_tolerance Sample.even_weights 5) Sample.current_holdings)
    by (repeat constructor; apply Qle_bool_iff; reflexivity).
  split; [exact H|].
  destruct (rebalance_within_tolerance Sample.even_weights 3500 5 0) as (_ & _ & _ & Hall).
  destruct (Hall _ H) as (res & Hres & Hord & _).
  exists res. split; assumption.
Defined.



Lemma filter_snoc (A : Type) (f : A -> bool) (xs : list A) (x : A) :
  filter f (xs ++ [x]) = filter f xs ++ (if f x then [x] else []).
Proof. rewrite filter_app. reflexivity. Qed.





(** X6.  The first holding outside its band whose price is 0 stops
    [rebalance] with the exception of the division. *)
Lemma rebalance_zero_price_raises
  (target_weights : list (string * Q)) (total_value tolerance tax_rate : Q)
  (before after : list HoldingAnalysis.t) (h : HoldingAnalysis.t) :
  (forall h', In h' before ->
     ~ within_tolerance target_weights tolerance h' ->
     ~ HoldingAnalysis.current_price h' == 0) ->
  ~ within_tolerance target_weights tolerance h ->
  HoldingAnalysis.current_price h == 0 ->
  rebalance target_weights total_value tolerance tax_rate (before ++ h :: after)
  = Raise ZeroDivisionError.
Proof.
  intros Hbefore Hband Hzero. unfold rebalance. rewrite loop_app.
  destruct (loop_returns target_weights total_value tolerance tax_rate initial before
              Hbefore) as [st ->].
  cbn [bind loop].
  now rewrite (loop_body_raises _ total_value _ tax_rate st h Hband Hzero).
Qed.

(** ** utils/metrics.py *)

Import Metrics.

Lemma fold_left_Qplus_shift (xs : list Q) (a : Q) :
  fold_left Qplus xs a == a + sum xs.
Proof.
  unfold sum. revert a. induction xs as [|x xs IH]; intros a; cbn [fold_left].
  - lra.
  - rewrite (IH (a + x)), (IH (0 + x)). lra.
Qed.

Lemma sum_cons (x : Q) (xs : list Q) : sum (x :: xs) == x + sum xs.
Proof.
  unfold sum at 1. cbn [fold_left]. rewrite fold_left_Qplus_shift. lra.
Qed.

Lemma fsum_Fin_from (xs : list Q) (a : Q) :
  fold_left fadd (map Fin xs) (Fin a) = Fin (fold_left Qplus xs a).
Proof.
  revert a. induction xs as [|x xs IH]; intros a; cbn [map fold_left]; [reflexivity|].
  cbn [fadd]. apply IH.
Qed.

Lemma fsum_Fin (xs : list Q) : fsum (map Fin xs) = Fin (sum xs).
Proof. apply fsum_Fin_from. Qed.

Lemma map2_Fin (f : npfloat -> npfloat -> npfloat) (g : Q -> Q -> Q) (xs ys : list Q) :
  (forall a b, f (Fin a) (Fin b) = Fin (g a b)) ->
  map2 f (map Fin xs) (map Fin ys) = map Fin (map2 g xs ys).
Proof.
  intros H. revert ys. induction xs as [|x xs IH]; intros [|y ys]; cbn; try reflexivity.
  now rewrite H, IH.
Qed.

Lemma notna_Fin (xs : list Q) : notna (map Fin xs) = map Fin xs.
Proof.
  unfold notna. induction xs as [|x xs IH]; cbn; [reflexivity | now rewrite IH].
Qed.

Lemma of_nat_nonzero (n : nat) : (0 < n)%nat -> ~ inject_Z (Z.of_nat n) == 0.
Proof.
  intros H. change 0 with (inject_Z 0). rewrite inject_Z_injective. lia.
Qed.

Lemma fdiv_Fin (a b : Q) : ~ b == 0 -> fdiv (Fin a) (Fin b) = Fin (a / b).
Proof.
  intros H. cbn [fdiv]. destruct (Qeq_bool b 0) eqn:E; [|reflexivity].
  apply Qeq_bool_iff in E. contradiction.
Qed.

Lemma np_cov_Fin (xs ys : list Q) :
  (2 <= List.length xs)%nat ->
  let n := List.length xs in
  let c (a b : list Q) :=
    Fin (sum (map2 Qmult (deviations n a) (deviations n b))
         * (1 / inject_Z (Z.of_nat (n - 1)))) in
  np_cov (map Fin xs) (map Fin ys) = ((c xs xs, c xs ys), (c ys xs, c ys ys)).
Proof.
  intros Hlen n c. unfold np_cov. rewrite length_map. fold n.
  rewrite !fsum_Fin. unfold of_nat.
  rewrite !fdiv_Fin by (apply of_nat_nonzero; lia).
  assert (Hdev : forall zs a,
             map (fun v => fsub v (Fin a)) (map Fin zs) = map Fin (map (fun v => v - a) zs)).
  { intros zs a. rewrite !map_map. reflexivity. }
  rewrite !Hdev. fold (deviations n xs). fold (deviations n ys).
  rewrite !(map2_Fin fmul Qmult) by reflexivity.
  rewrite !fsum_Fin. reflexivity.
Qed.

Lemma sum_squares_nonneg (xs : list Q) : 0 <= sum (map2 Qmult xs xs).
Proof.
  induction xs as [|x xs IH]; cbn [map2].
  - unfold sum. cbn. lra.
  - rewrite sum_cons. nra.
Qed.

Lemma sum_squares_pos (xs : list Q) :
  (exists v, In v xs /\ ~ v == 0) -> 0 < sum (map2 Qmult xs xs).
Proof.
  induction xs as [|x xs IH]; intros (v & Hin & Hv); [destruct Hin|].
  cbn [map2]. rewrite sum_cons.
  pose proof (sum_squares_nonneg xs) as Hrest.
  destruct Hin as [->|Hin].
  - assert (0 < v * v) by (destruct (Q_dec v 0) as [[H|H]|H]; [nra | nra | contradiction]).
    lra.
  - assert (0 < sum (map2 Qmult xs xs)) by (apply IH; eauto).
    nra.
Qed.

Lemma nonconstant_length (xs : list Q) : nonconstant xs -> (2 <= List.length xs)%nat.
Proof.
  intros (a & b & Ha & Hb & Hab).
  destruct xs as [|x [|y xs]]; cbn in *; try lia; try tauto.
  destruct Ha as [<-|[]], Hb as [<-|[]]. exfalso. apply Hab. reflexivity.
Qed.

Lemma nonconstant_deviation (n : nat) (xs : list Q) :
  nonconstant xs -> exists v, In v (deviations n xs) /\ ~ v == 0.
Proof.
  intros (a & b & Ha & Hb & Hab). unfold deviations.
  set (m := sum xs / inject_Z (Z.of_nat n)).
  destruct (Qeq_dec (a - m) 0) as [Ea|Ea].
  - exists (b - m). split; [now apply (in_map (fun v => v - m))|].
    intros Eb. apply Hab. lra.
  - exists (a - m). split; [now apply (in_map (fun v => v - m))| exact Ea].
Qed.

Lemma variance_pos (xs : list Q) : nonconstant xs -> 0 < covariance xs xs.
Proof.
  intros H. unfold covariance. cbv zeta.
  pose proof (nonconstant_length xs H) as Hlen.
  apply Qlt_shift_div_l.
  - change 0 with (inject_Z 0). rewrite <- Zlt_Qlt. lia.
  - rewrite Qmult_0_l. apply sum_squares_pos. now apply nonconstant_deviation.
Qed.

Lemma beta_finite (p b : list Q) :
  let n := Nat.min (List.length p) (List.length b) in
  (2 <= n)%nat ->
  feq (beta (map Fin p) (map Fin b))
      (if Qeq_bool (covariance (firstn n b) (firstn n b)) 0 then Fin 0
       else Fin (covariance (firstn n p) (firstn n b)
                 / covariance (firstn n b) (firstn n b))).
Proof.
  intros n Hn. unfold beta.
  destruct p as [|p0 p]; [subst n; cbn in Hn; lia|].
  destruct b as [|b0 b]; [subst n; rewrite Nat.min_0_r in Hn; lia|].
  remember (p0 :: p) as ps. remember (b0 :: b) as bs.
  assert (Hmatch : forall (A : Type) (x y : A),
             match map Fin ps, map Fin bs with
             | [], _ | _, [] => x
             | _, _ => y
             end = y).
  { intros A x y. subst ps bs. reflexivity. }
  rewrite Hmatch. rewrite !length_map. fold n.
  rewrite !firstn_map.
  assert (Hlp : List.length (firstn n ps) = n) by (apply firstn_length_le; lia).
  assert (Hlb : List.length (firstn n bs) = n) by (apply firstn_length_le; lia).
  rewrite np_cov_Fin by lia. cbv zeta. cbn [fst snd].
  rewrite Hlp. unfold covariance. rewrite Hlp, Hlb.
  set (sp := sum (map2 Qmult (deviations n (firstn n ps)) (deviations n (firstn n bs)))).
  set (sb := sum (map2 Qmult (deviations n (firstn n bs)) (deviations n (firstn n bs)))).
  set (k := inject_Z (Z.of_nat (n - 1))).
  assert (Hk : ~ k == 0) by (apply of_nat_nonzero; lia).
  cbn [feqb].
  assert (Heq : sb * (1 / k) == sb / k) by (field; exact Hk).
  rewrite (Qeqb_comp _ _ Heq 0 0 (Qeq_refl 0)).
  destruct (Qeq_bool (sb / k) 0) eqn:E; [cbn; reflexivity|].
  apply Qeq_bool_neq in E.
  rewrite fdiv_Fin by (rewrite Heq; exact E).
  cbn [feq]. field. split; [exact Hk|].
  intros Hsb. apply E. rewrite Hsb. field. exact Hk.
Qed.

Lemma feq_refl (x : npfloat) : feq x x.
Proof. destruct x; cbn; auto. reflexivity. Qed.

Lemma feq_trans (x y z : npfloat) : feq x y -> feq y z -> feq x z.
Proof.
  destruct x, y, z; cbn; try tauto. intros H1 H2. now rewrite H1.
Qed.


Lemma beta_nonempty (p b : list npfloat) :
  p <> [] -> b <> [] ->
  beta p b =
    (let min_len := Nat.min (List.length p) (List.length b) in
     let cov := np_cov (firstn min_len p) (firstn min_len b) in
     if feqb (snd (snd cov)) (Fin 0) then Fin 0
     else fdiv (snd (fst cov)) (snd (snd cov))).
Proof.
  intros Hp Hb. destruct p; [contradiction|]. destruct b; [contradiction|]. reflexivity.
Qed.



Lemma sum_map_square_nonneg (f : Q -> Q) (xs : list Q) :
  0 <= sum (map (fun v => f v * f v) xs).
Proof.
  induction xs as [|x xs IH]; cbn [map].
  - unfold sum. cbn. lra.
  - rewrite sum_cons. generalize dependent (f x). intros z. nra.
Qed.

Section Volatility.
Variable sqrtQ : Q -> Q.

Lemma std_single (x : npfloat) : std sqrtQ [x] = NaN.
Proof. unfold std, notna. cbn [filter]. destruct (negb (is_nan x)); reflexivity. Qed.

Lemma std_finite (xs : list Q) :
  (2 <= List.length xs)%nat ->
  let n := List.length xs in
  let avg := sum xs / inject_Z (Z.of_nat n) in
  std sqrtQ (map Fin xs) =
    Fin (sqrtQ (sum (map (fun v => (avg - v) * (avg - v)) xs)
                / inject_Z (Z.of_nat (n - 1)))).
Proof.
  intros Hlen n avg. unfold std. rewrite notna_Fin, length_map. fold n.
  destruct (n <=? 1)%nat eqn:E; [apply Nat.leb_le in E; lia|].
  rewrite fsum_Fin. unfold of_nat. rewrite fdiv_Fin by (apply of_nat_nonzero; lia).
  fold avg. rewrite map_map.
  change (map (fun x => fmul (fsub (Fin avg) (Fin x)) (fsub (Fin avg) (Fin x))) xs)
    with (map (fun x => Fin ((avg - x) * (avg - x))) xs).
  rewrite <- (map_map (fun v => (avg - v) * (avg - v)) Fin), fsum_Fin.
  rewrite fdiv_Fin by (apply of_nat_nonzero; lia).
  cbn [np_sqrt].
  set (sq := sum _). set (k := inject_Z _).
  assert (Hsq : 0 <= sq) by apply sum_map_square_nonneg.
  assert (Hk : 0 < k).
  { subst k. change 0 with (inject_Z 0). rewrite <- Zlt_Qlt. lia. }
  assert (H : 0 <= sq / k).
  { apply Qle_shift_div_l; [exact Hk | lra]. }
  apply Qlt_bool_false in H. now rewrite H.
Qed.

(** C8.  For a series that is not empty the annualized volatility is
    the volatility that is not annualized times [np.sqrt(252)], and the
    latter is the sample deviation of the series: on two finite values
    or more the root of the sum of the squared deviations from the
    mean over [n - 1], and [nan] on one value, where the annualized
    volatility is that [nan] too.  The volatility of the empty series
    is 0. *)
Theorem volatility_annualized :
  (forall r, r <> [] ->
     volatility sqrtQ r true = fmul (volatility sqrtQ r false) (np_sqrt sqrtQ (Fin 252)))
  /\ (forall annualize, volatility sqrtQ [] annualize = Fin 0)
  /\ (forall r, r <> [] -> volatility sqrtQ r false = std sqrtQ r)
  /\ (forall xs : list Q, (2 <= List.length xs)%nat ->
        let n := List.length xs in
        let avg := sum xs / inject_Z (Z.of_nat n) in
        volatility sqrtQ (map Fin xs) false =
          Fin (sqrtQ (sum (map (fun v => (avg - v) * (avg - v)) xs)
                      / inject_Z (Z.of_nat (n - 1)))))
  /\ (forall x annualize, volatility sqrtQ [x] annualize = NaN).
Proof.
  split; [|split; [|split; [|split]]].
  - intros [|x r] H; [contradiction | reflexivity].
  - reflexivity.
  - intros [|x r] H; [contradiction | reflexivity].
  - intros xs Hlen n avg. subst n avg.
    pose proof (std_finite xs Hlen) as Hstd. cbv zeta in Hstd. rewrite <- Hstd.
    destruct xs; [cbn in Hlen; lia | reflexivity].
  - intros x annualize. unfold volatility. rewrite std_single.
    destruct annualize; reflexivity.
Qed.

End Volatility.

Lemma volatility_annualized_witness :
  [Fin (1 # 100); Fin (-2 # 100); Fin (3 # 100)] <> []
  /\ volatility Sample.sqrtQ [Fin (1 # 100); Fin (-2 # 100); Fin (3 # 100)] true
     = fmul (volatility Sample.sqrtQ [Fin (1 # 100); Fin (-2 # 100); Fin (3 # 100)] false)
         (np_sqrt Sample.sqrtQ (Fin 252)).
Proof.
  assert (H : [Fin (1 # 100); Fin (-2 # 100); Fin (3 # 100)] <> []) by discriminate.
  split; [exact H|].
  exact (proj1 (volatility_annualized Sample.sqrtQ) _ H).
Defined.

Lemma total_return_positive (initial final : Q) :
  0 < initial -> total_return initial final = Ok ((final - initial) / initial * 100).
Proof.
  intros H. unfold total_return.
  destruct (Qle_bool initial 0) eqn:E; [apply Qle_bool_iff in E; lra|].
  rewrite truediv_ok by lra. reflexivity.
Qed.

Lemma total_return_nonpositive (initial final : Q) :
  initial <= 0 ->
  total_return initial final = Raise (ValueError "Initial value must be positive").
Proof.
  intros H. unfold total_return. apply Qle_bool_iff in H. now rewrite H.
Qed.

(** C7.  [total_return(initial, final)] is
    [(final - initial) / initial * 100] when [initial > 0]; it raises
    exactly when [initial <= 0], and then the [ValueError] of the
    source.  [total_return(100, 120)] is 20, [total_return(100, 80)]
    is -20, and [total_return(0, x)] raises for every [x]. *)
Theorem total_return_domain :
  (forall initial final, 0 < initial ->
     total_return initial final = Ok ((final - initial) / initial * 100))
  /\ (forall initial final, raises (total_return initial final) <-> initial <= 0)
  /\ (forall initial final, initial <= 0 ->
        total_return initial final = Raise (ValueError "Initial value must be positive"))
  /\ (exists r, total_return 100 120 = Ok r /\ r == 20)
  /\ (exists r, total_return 100 80 = Ok r /\ r == -20)
  /\ (forall x, raises (total_return 0 x)).
Proof.
  split; [exact total_return_positive|]. split; [|split; [exact total_return_nonpositive|]].
  - intros initial final. split.
    + intros [e He]. destruct (Qlt_le_dec 0 initial) as [H|H]; [|exact H].
      rewrite (total_return_positive initial final H) in He. discriminate.
    + intros H. eexists. now apply total_return_nonpositive.
  - split; [|split].
    + eexists. split; [reflexivity|]. reflexivity.
    + eexists. split; [reflexivity|]. reflexivity.
    + intros x. eexists. apply total_return_nonpositive. lra.
Qed.

Lemma total_return_domain_witness :
  0 < 100 /\ total_return 100 120 = Ok ((120 - 100) / 100 * 100).
Proof.
  assert (H : 0 < 100) by reflexivity.
  split; [exact H|].
  exact (proj1 total_return_domain 100 120 H).
Defined.

(** ** core/analyzer.py *)

Import Pandas MarketDataProvider Analyzer.

Lemma bind_inv (A B : Type) (m : result A) (k : A -> result B) (b : B) :
  (x <- m ;; k x) = Ok b -> exists a, m = Ok a /\ k a = Ok b.
Proof. destruct m as [a|e]; cbn; [eauto | discriminate]. Qed.

Lemma traverse_inv (A B : Type) (f : A -> result B) (xs : list A) (ys : list B) :
  traverse f xs = Ok ys -> Forall2 (fun x y => f x = Ok y) xs ys.
Proof.
  revert ys. induction xs as [|x xs IH]; intros ys H; cbn [traverse] in H.
  - inversion H. constructor.
  - apply bind_inv in H. destruct H as (y & Hy & H).
    apply bind_inv in H. destruct H as (ys' & Hys & H).
    inversion H; subst. constructor; [exact Hy | now apply IH].
Qed.

Lemma traverse_returns (A B : Type) (f : A -> result B) (xs : list A) :
  Forall (fun x => returns (f x)) xs -> returns (traverse f xs).
Proof.
  induction 1 as [|x xs [y Hy] _ [ys IH]]; cbn [traverse].
  - now exists [].
  - rewrite Hy. cbn [bind]. rewrite IH. cbn [bind]. now exists (y :: ys).
Qed.

Section Analyzer_facts.
Variable sqrtQ : Q -> Q.
Variable powQ : Q -> Q -> Q.
Variable self : MarketDataProvider.t.

Lemma gather_filter (hs : list Holding.t) :
  map ticker (gather self hs) = map Holding.ticker (filter (has_price self) hs).
Proof.
  induction hs as [|h hs IH]; cbn [gather filter]; [reflexivity|].
  unfold has_price at 1.
  destruct (get_current_price self (Holding.ticker h)); cbn [map]; now rewrite IH.
Qed.

Lemma gather_length (hs : list Holding.t) :
  (List.length (gather self hs) <= List.length hs)%nat.
Proof.
  induction hs as [|h hs IH]; cbn [gather List.length]; [lia|].
  destruct (get_current_price self (Holding.ticker h)); cbn [List.length]; lia.
Qed.

Lemma gather_app (l1 l2 : list Holding.t) :
  gather self (l1 ++ l2) = gather self l1 ++ gather self l2.
Proof.
  induction l1 as [|h l1 IH]; cbn [gather app]; [reflexivity|].
  destruct (get_current_price self (Holding.ticker h)); cbn [app]; now rewrite IH.
Qed.

Lemma gather_none (hs : list Holding.t) :
  (forall h, In h hs -> get_current_price self (Holding.ticker h) = None) ->
  gather self hs = [].
Proof.
  induction hs as [|h hs IH]; intros H; cbn [gather]; [reflexivity|].
  rewrite (H h (or_introl eq_refl)). apply IH. intros h' Hin. apply H. now right.
Qed.

Lemma analysis_of_inv (total_value : Q) (d : _HoldingData) (h : HoldingAnalysis.t) :
  analysis_of total_value d = Ok h ->
  HoldingAnalysis.ticker h = ticker d
  /\ HoldingAnalysis.quantity h = quantity d
  /\ HoldingAnalysis.avg_cost h = avg_cost d
  /\ HoldingAnalysis.market_value h = market_value d
  /\ HoldingAnalysis.weight_pct h =
       (if Qlt_bool 0 total_value then market_value d / total_value * 100 else 0).
Proof.
  unfold analysis_of. intros H.
  apply bind_inv in H. destruct H as (w & Hw & H).
  apply bind_inv in H. destruct H as (r & Hr & H).
  inversion H; subst h; clear H. cbn. repeat split.
  destruct (Qlt_bool 0 total_value) eqn:E.
  - apply bind_inv in Hw. destruct Hw as (q & Hq & Hw).
    apply truediv_inv in Hq. destruct Hq as [_ ->]. now inversion Hw.
  - now inversion Hw.
Qed.

(** The two shapes of a result of [analyze]. *)
Lemma analyze_inv (portfolio : Portfolio.t) (benchmark : string) (res : AnalysisResult.t) :
  analyze sqrtQ powQ self portfolio benchmark = Ok res ->
  (_gather_holdings_data self portfolio = [] /\ res = _empty_result portfolio benchmark)
  \/ (exists holdings_data,
        _gather_holdings_data self portfolio = holdings_data
        /\ holdings_data <> []
        /\ AnalysisResult.total_value res = sum (map market_value holdings_data)
        /\ AnalysisResult.total_cost res =
             sum (map (fun h => avg_cost h * quantity h) holdings_data)
        /\ Forall2 (fun d h => analysis_of (AnalysisResult.total_value res) d = Ok h)
             holdings_data (AnalysisResult.holdings_analysis res)).
Proof.
  unfold analyze. intros H.
  destruct (_gather_holdings_data self portfolio) as [|d ds] eqn:Eg.
  - left. inversion H. auto.
  - right. exists (d :: ds). split; [reflexivity|]. split; [discriminate|].
    remember (d :: ds) as data.
    apply bind_inv in H. destruct H as (ha & Hha & H).
    apply bind_inv in H. destruct H as (pr & _ & H).
    apply bind_inv in H. destruct H as (tr & _ & H).
    apply bind_inv in H. destruct H as (ar & _ & H).
    apply bind_inv in H. destruct H as (sr & _ & H).
    apply bind_inv in H. destruct H as (mdd & _ & H).
    apply bind_inv in H. destruct H as (btr & _ & H).
    inversion H; subst res; clear H. cbn [AnalysisResult.total_value
      AnalysisResult.total_cost AnalysisResult.holdings_analysis].
    repeat split. apply traverse_inv in Hha. exact Hha.
Qed.


Lemma sum_scaled {A : Type} (f : A -> Q) (k : Q) (xs : list A) :
  sum (map (fun x => f x * k) xs) == sum (map f xs) * k.
Proof.
  induction xs as [|x xs IH]; cbn [map].
  - unfold sum. cbn. lra.
  - rewrite !sum_cons, IH. lra.
Qed.

Lemma sum_ext {A B : Type} (f : A -> Q) (g : B -> Q) (xs : list A) (ys : list B) :
  Forall2 (fun x y => f x == g y) xs ys -> sum (map f xs) == sum (map g ys).
Proof.
  induction 1 as [|x y xs ys H _ IH]; cbn [map]; [reflexivity|].
  rewrite !sum_cons, H, IH. reflexivity.
Qed.

Lemma Forall2_map_eq {A B C : Type} (f : A -> C) (g : B -> C) (xs : list A) (ys : list B) :
  Forall2 (fun x y => g y = f x) xs ys -> map g ys = map f xs.
Proof.
  induction 1 as [|x y xs ys H _ IH]; cbn [map]; [reflexivity | now rewrite H, IH].
Qed.

Lemma Forall2_impl {A B : Type} {P Q : A -> B -> Prop} {xs : list A} {ys : list B} :
  (forall x y, P x y -> Q x y) -> Forall2 P xs ys -> Forall2 Q xs ys.
Proof. intros H. induction 1; constructor; auto. Qed.

Lemma Forall2_right {A B : Type} {P : A -> B -> Prop} {Q : B -> Prop}
  {xs : list A} {ys : list B} :
  (forall x y, P x y -> Q y) -> Forall2 P xs ys -> Forall Q ys.
Proof. intros H. induction 1; constructor; eauto. Qed.

(** C4.  In a result of [analyze] whose [total_value] is positive,
    every [weight_pct] is [market_value / total_value * 100] and the
    weights add up to 100, within 0.1 a fortiori; when [total_value]
    is 0, or below, every [weight_pct] is 0.  [total_value] is the sum
    of the market values of the holdings of the result. *)
Theorem analyze_weights_sum (portfolio : Portfolio.t) (benchmark : string)
  (res : AnalysisResult.t) :
  analyze sqrtQ powQ self portfolio benchmark = Ok res ->
  (0 < AnalysisResult.total_value res ->
     sum (map HoldingAnalysis.weight_pct (AnalysisResult.holdings_analysis res)) == 100
     /\ Qabs (sum (map HoldingAnalysis.weight_pct (AnalysisResult.holdings_analysis res))
              - 100) <= 1 # 10
     /\ Forall (fun h => HoldingAnalysis.weight_pct h =
                           HoldingAnalysis.market_value h / AnalysisResult.total_value res
                           * 100)
          (AnalysisResult.holdings_analysis res))
  /\ (AnalysisResult.total_value res <= 0 ->
        Forall (fun h => HoldingAnalysis.weight_pct h = 0)
          (AnalysisResult.holdings_analysis res))
  /\ AnalysisResult.total_value res ==
       sum (map HoldingAnalysis.market_value (AnalysisResult.holdings_analysis res)).
Proof.
  intros H. apply analyze_inv in H.
  destruct H as [[_ ->]|(data & _ & _ & Htv & _ & Hha)].
  - cbn. repeat split; try constructor; try lra.
  - set (tv := AnalysisResult.total_value res) in *.
    set (ha := AnalysisResult.holdings_analysis res) in *.
    assert (Hinv := Forall2_impl (analysis_of_inv tv) Hha).
    cbv beta in Hinv.
    assert (Hmv : map HoldingAnalysis.market_value ha = map market_value data).
    { apply Forall2_map_eq. eapply Forall2_impl; [|exact Hinv]. cbv beta. tauto. }
    assert (Hsum : tv == sum (map HoldingAnalysis.market_value ha)).
    { rewrite Hmv, Htv. reflexivity. }
    split; [|split; [|exact Hsum]].
    + intros Hpos. apply Qlt_bool_iff in Hpos.
      assert (Hw : Forall (fun h => HoldingAnalysis.weight_pct h =
                                      HoldingAnalysis.market_value h / tv * 100) ha).
      { eapply Forall2_right; [|exact Hinv]. cbv beta.
        intros d h (_ & _ & _ & Hm & Hwt). now rewrite Hwt, Hpos, Hm. }
      assert (H100 : sum (map HoldingAnalysis.weight_pct ha) == 100).
      { rewrite (sum_ext HoldingAnalysis.weight_pct
                   (fun h => HoldingAnalysis.market_value h * (/ tv * 100)) ha ha).
        - rewrite sum_scaled, <- Hsum. apply Qlt_bool_iff in Hpos. field. lra.
        - clear -Hw. induction Hw as [|h l Hh _ IH]; constructor; [|exact IH].
          rewrite Hh. unfold Qdiv. ring. }
      split; [exact H100|]. split; [|exact Hw].
      rewrite H100. cbn. discriminate.
    + intros Hle. apply Qlt_bool_false in Hle.
      eapply Forall2_right; [|exact Hinv]. cbv beta.
      intros d h (_ & _ & _ & _ & Hwt). now rewrite Hwt, Hle.
Qed.


Lemma gather_In (hs : list Holding.t) (h : Holding.t) :
  In h hs -> has_price self h = true -> gather self hs <> [].
Proof.
  induction hs as [|h0 hs IH]; intros Hin Hp; [destruct Hin|].
  cbn [gather]. destruct Hin as [->|Hin].
  - unfold has_price in Hp.
    destruct (get_current_price self (Holding.ticker h)); [discriminate | discriminate].
  - destruct (get_current_price self (Holding.ticker h0)); [discriminate | now apply IH].
Qed.

(** C5.  When no holding has a current price, [analyze] returns the
    degenerate result: [total_value] and every metric 0, no
    [holdings_analysis], and as [total_cost] the cost of all the
    holdings of the portfolio.  In every result the holdings analysed
    are the holdings that have a price, in their order, so there are
    no more of them than holdings in the portfolio; and when there is
    one at all, [total_cost] is the cost of these alone.  A holding
    without a price does not stop the analysis of the others: with
    another holding priced, [analyze] answers as it does for the
    portfolio without that holding. *)
Theorem analyze_unresolved_prices (portfolio : Portfolio.t) (benchmark : string) :
  ((forall h, In h (Portfolio.holdings portfolio) ->
      get_current_price self (Holding.ticker h) = None) ->
   analyze sqrtQ powQ self portfolio benchmark =
     Ok (AnalysisResult.make (Portfolio.name portfolio) 0
           (sum (map (fun h => Holding.quantity h * Holding.avg_cost h)
                   (Portfolio.holdings portfolio)))
           0 0 (Fin 0) (Fin 0) (Fin 0) (Fin 0) (Fin 0)
           (Portfolio.currency portfolio) [] benchmark None))
  /\ (forall res, analyze sqrtQ powQ self portfolio benchmark = Ok res ->
        map HoldingAnalysis.ticker (AnalysisResult.holdings_analysis res)
          = map Holding.ticker (filter (has_price self) (Portfolio.holdings portfolio))
        /\ (List.length (AnalysisResult.holdings_analysis res)
            <= List.length (Portfolio.holdings portfolio))%nat
        /\ (AnalysisResult.holdings_analysis res <> [] ->
            AnalysisResult.total_cost res ==
              sum (map (fun h => HoldingAnalysis.avg_cost h * HoldingAnalysis.quantity h)
                     (AnalysisResult.holdings_analysis res))))
  /\ (forall before h after,
        Portfolio.holdings portfolio = before ++ h :: after ->
        get_current_price self (Holding.ticker h) = None ->
        (exists h', In h' (before ++ after) /\ has_price self h' = true) ->
        analyze sqrtQ powQ self portfolio benchmark =
        analyze sqrtQ powQ self
          (Portfolio.make (Portfolio.name portfolio) (before ++ after)
             (Portfolio.currency portfolio)) benchmark).
Proof.
  split; [|split].
  - intros H. unfold analyze, _gather_holdings_data.
    rewrite (gather_none _ H). reflexivity.
  - intros res H. apply analyze_inv in H.
    destruct H as [[Hg ->]|(data & Hg & Hne & _ & Htc & Hha)].
    + unfold _gather_holdings_data in Hg. cbn.
      pose proof (gather_filter (Portfolio.holdings portfolio)) as Hf.
      rewrite Hg in Hf. cbn in Hf. repeat split; [exact Hf | lia | tauto].
    + unfold _gather_holdings_data in Hg.
      set (tv := AnalysisResult.total_value res) in *.
      assert (Hinv := Forall2_impl (analysis_of_inv tv) Hha). cbv beta in Hinv.
      split; [|split].
      * rewrite <- gather_filter, Hg. apply Forall2_map_eq.
        eapply Forall2_impl; [|exact Hinv]. cbv beta. tauto.
      * rewrite <- (Forall2_length Hha), <- Hg. apply gather_length.
      * intros _. rewrite Htc. apply sum_ext.
        eapply Forall2_impl; [|exact Hinv]. cbv beta.
        intros d h0 (_ & -> & -> & _). reflexivity.
  - intros before h after Hhs Hnone (h' & Hin & Hp).
    pose proof (gather_In (before ++ after) h' Hin Hp) as Hne.
    unfold analyze, _gather_holdings_data. cbn [Portfolio.holdings Portfolio.name
      Portfolio.currency]. rewrite Hhs.
    assert (Hg : gather self (before ++ h :: after) = gather self (before ++ after)).
    { rewrite !gather_app. cbn [gather]. now rewrite Hnone. }
    rewrite Hg. destruct (gather self (before ++ after)); [contradiction | reflexivity].
Qed.


(** *** What can raise in [analyze] *)

Lemma dict_set_absent (V : Type) (d : list (string * V)) (k : string) (v : V) :
  ~ In k (map fst d) -> dict_set d k v = d ++ [(k, v)].
Proof.
  induction d as [|[k' v'] d IH]; cbn [dict_set map fst app]; intros H; [reflexivity|].
  destruct (String.eqb k' k) eqn:E.
  - apply String.eqb_eq in E. exfalso. apply H. now left.
  - rewrite IH; [reflexivity|]. intros Hin. apply H. now right.
Qed.

Lemma dict_mem_In (V : Type) (d : list (string * V)) (k : string) :
  dict_mem d k = true <-> In k (map fst d).
Proof.
  unfold dict_mem. rewrite existsb_exists. split.
  - intros ([k' v] & Hin & E). apply String.eqb_eq in E. cbn in E. subst k'.
    now apply (in_map fst) in Hin.
  - intros Hin. apply in_map_iff in Hin. destruct Hin as ([k' v] & <- & Hin).
    exists (k', v). split; [exact Hin | apply String.eqb_refl].
Qed.

Lemma collect_prices_keys (hs : list HoldingAnalysis.t)
  (acc : list (string * list (Z * Q))) :
  NoDup (map fst acc ++ map HoldingAnalysis.ticker hs) ->
  map fst (collect_prices self hs acc)
  = map fst acc ++ map HoldingAnalysis.ticker (filter (has_history self) hs).
Proof.
  revert acc. induction hs as [|h hs IH]; intros acc Hnd; cbn [collect_prices filter map].
  - now rewrite app_nil_r.
  - unfold has_history at 1.
    destruct (get_historical_prices self (HoldingAnalysis.ticker h)) as [|p ps] eqn:E.
    + apply IH. cbn [map] in Hnd. now apply NoDup_remove_1 in Hnd.
    + cbn [map] in Hnd. pose proof (NoDup_remove_2 _ _ _ Hnd) as Hnotin.
      rewrite dict_set_absent
        by (intros Hin; apply Hnotin; apply in_or_app; now left).
      rewrite IH.
      * rewrite map_app. cbn [map fst]. now rewrite <- app_assoc.
      * rewrite map_app. cbn [map fst]. now rewrite <- app_assoc.
Qed.

Lemma weights_shape (hs : list HoldingAnalysis.t) :
  NoDup (map HoldingAnalysis.ticker hs) ->
  List.length (weights_of hs (collect_prices self hs []))
  = List.length (collect_prices self hs []).
Proof.
  intros Hnd. unfold weights_of. rewrite length_map.
  pose proof (collect_prices_keys hs [] Hnd) as Hkeys. cbn [map app] in Hkeys.
  rewrite <- (length_map fst (collect_prices self hs [])), Hkeys, length_map.
  f_equal. apply filter_ext_in. intros h Hin.
  destruct ((has_history self) h) eqn:Eh.
  - apply dict_mem_In. rewrite Hkeys. apply in_map. apply filter_In. now split.
  - destruct (dict_mem _ _) eqn:Em; [|reflexivity].
    apply dict_mem_In in Em. rewrite Hkeys in Em.
    apply in_map_iff in Em. destruct Em as (h' & Et & Hin').
    apply filter_In in Hin'. destruct Hin' as [Hin' Eh'].
    assert (h' = h); [|congruence].
    clear -Hnd Hin Hin' Et. induction hs as [|a hs IH]; [destruct Hin|].
    cbn [map] in Hnd. inversion Hnd as [|? ? Hnotin Hnd']; subst.
    destruct Hin as [->|Hin], Hin' as [->|Hin'].
    + reflexivity.
    + exfalso. apply Hnotin. rewrite <- Et. now apply in_map.
    + exfalso. apply Hnotin. rewrite Et. now apply in_map.
    + now apply IH.
Qed.


Lemma dot_returns (df : DataFrame) (weights : list npfloat) :
  List.length (columns df) = List.length weights -> returns (dot df weights).
Proof.
  intros H. unfold dot. rewrite H, Nat.eqb_refl. eexists. reflexivity.
Qed.

Lemma dot_raises (df : DataFrame) (weights : list npfloat) :
  List.length (columns df) <> List.length weights ->
  dot df weights = Raise (ValueError "Dot product shape mismatch").
Proof.
  intros H. unfold dot. apply Nat.eqb_neq in H. now rewrite H.
Qed.

Lemma _compute_portfolio_returns_ok (hs : list HoldingAnalysis.t) (portfolio : Portfolio.t) :
  NoDup (map HoldingAnalysis.ticker hs) ->
  returns (_compute_portfolio_returns self hs portfolio).
Proof.
  intros Hnd. unfold _compute_portfolio_returns.
  pose proof (weights_shape hs Hnd) as Hshape.
  destruct (collect_prices self hs []) as [|kv all_prices]; [now exists []|].
  destruct (empty _); [now exists []|].
  destruct (empty _); [now exists []|].
  apply dot_returns. cbn [frame_pct_change_dropna frame_dropna columns].
  now rewrite length_map.
Qed.

Lemma _compute_max_drawdown_ok (hs : list HoldingAnalysis.t) (portfolio : Portfolio.t) :
  NoDup (map HoldingAnalysis.ticker hs) ->
  returns (_compute_max_drawdown self hs portfolio).
Proof.
  intros Hnd. unfold _compute_max_drawdown.
  pose proof (weights_shape hs Hnd) as Hshape.
  destruct (collect_prices self hs []) as [|kv all_prices]; [now exists (Fin 0)|].
  destruct (empty _); [now exists (Fin 0)|].
  destruct (dot_returns (frame_dropna (kv :: all_prices))
              (weights_of hs (kv :: all_prices))) as [v Hv].
  - cbn [frame_dropna columns]. now rewrite length_map.
  - rewrite Hv. cbn [bind]. eexists. reflexivity.
Qed.

Lemma sharpe_ratio_returns (rs : list npfloat) (risk_free_rate : Q) :
  returns (sharpe_ratio sqrtQ rs risk_free_rate).
Proof.
  unfold sharpe_ratio. destruct rs as [|r rs]; [now exists (Fin 0)|].
  destruct (fltb _ _) eqn:E; [now exists (Fin 0)|].
  unfold truediv_f.
  destruct (feqb _ (Fin 0)) eqn:Ez; [|eexists; reflexivity].
  exfalso. destruct (volatility sqrtQ (r :: rs) true) as [v| | |]; cbn in E, Ez;
    try discriminate.
  apply Qeq_bool_iff in Ez. apply Qlt_bool_false in E.
  rewrite Ez in E. revert E. cbn. intros E. apply E. reflexivity.
Qed.

Lemma annualized_return_one (total_return_pct : Q) :
  returns (annualized_return powQ total_return_pct 1).
Proof. unfold annualized_return. cbn. eexists. reflexivity. Qed.

Lemma _compute_benchmark_total_return_cases (benchmark : string) :
  let prices := get_historical_prices self benchmark in
  ((List.length prices < 2)%nat -> _compute_benchmark_total_return self benchmark = Ok 0)
  /\ (forall first rest, prices = first :: rest -> rest <> [] ->
        _compute_benchmark_total_return self benchmark
        = total_return (snd first) (snd (last prices first))).
Proof.
  intros prices. unfold _compute_benchmark_total_return. fold prices. split.
  - intros H. destruct prices as [|p0 [|p1 ps]]; cbn in *; try reflexivity. lia.
  - intros first rest -> Hrest. destruct rest as [|p1 ps]; [contradiction|]. reflexivity.
Qed.

Lemma sum_pos (xs : list Q) :
  xs <> [] -> Forall (fun x => 0 < x) xs -> 0 < sum xs.
Proof.
  intros Hne H. induction H as [|x xs Hx Hxs IH]; [contradiction|].
  rewrite sum_cons. destruct xs as [|y ys].
  - unfold sum. cbn [fold_left]. lra.
  - assert (0 < sum (y :: ys)) by (apply IH; discriminate). lra.
Qed.


Lemma gather_wf (hs : list Holding.t) :
  Forall (fun h => 0 < Holding.quantity h /\ 0 < Holding.avg_cost h) hs ->
  Forall (fun d => 0 < quantity d /\ 0 < avg_cost d) (gather self hs).
Proof.
  induction 1 as [|h hs Hh _ IH]; cbn [gather]; [constructor|].
  destruct (get_current_price self (Holding.ticker h)); [|exact IH].
  constructor; [exact Hh | exact IH].
Qed.

Lemma NoDup_map_filter (A B : Type) (f : A -> B) (p : A -> bool) (xs : list A) :
  NoDup (map f xs) -> NoDup (map f (filter p xs)).
Proof.
  induction xs as [|x xs IH]; cbn [map filter]; intros H; [constructor|].
  inversion H as [|? ? Hnotin Hnd]; subst.
  destruct (p x); cbn [map]; [|now apply IH].
  constructor; [|now apply IH].
  intros Hin. apply Hnotin. apply in_map_iff in Hin. destruct Hin as (y & <- & Hy).
  apply in_map. apply filter_In in Hy. tauto.
Qed.

Lemma analysis_of_returns (total_value : Q) (d : _HoldingData) :
  0 < avg_cost d -> returns (analysis_of total_value d).
Proof.
  intros Ha. unfold analysis_of.
  destruct (Qlt_bool 0 total_value) eqn:E.
  - apply Qlt_bool_iff in E. rewrite truediv_ok by lra. cbn [bind].
    rewrite truediv_ok by lra. cbn [bind]. eexists. reflexivity.
  - cbn [bind]. rewrite truediv_ok by lra. cbn [bind]. eexists. reflexivity.
Qed.

(** X16.  Apart from a ticker held twice, a well-formed portfolio and a
    benchmark series that starts with a positive price are analysed
    without an exception, whatever prices and series are missing. *)
Theorem analyze_returns (portfolio : Portfolio.t) (benchmark : string) :
  Forall (fun h => 0 < Holding.quantity h /\ 0 < Holding.avg_cost h)
    (Portfolio.holdings portfolio) ->
  NoDup (map Holding.ticker (Portfolio.holdings portfolio)) ->
  (forall first rest,
     get_historical_prices self benchmark = first :: rest -> rest <> [] ->
     0 < snd first) ->
  returns (analyze sqrtQ powQ self portfolio benchmark).
Proof.
  intros Hwf Hnd Hbench. unfold analyze, _gather_holdings_data.
  pose proof (gather_wf _ Hwf) as Hdata.
  pose proof (gather_filter (Portfolio.holdings portfolio)) as Hticker.
  pose proof (NoDup_map_filter _ _ Holding.ticker (has_price self) _ Hnd) as Hnd'.
  rewrite <- Hticker in Hnd'. clear Hticker Hnd Hwf.
  destruct (gather self (Portfolio.holdings portfolio)) as [|d ds] eqn:Eg;
    [eexists; reflexivity|].
  remember (d :: ds) as data eqn:Edata.
  set (tv := sum (map market_value data)).
  set (tc := sum (map (fun h => avg_cost h * quantity h) data)).
  change (traverse _ data) with (traverse (analysis_of tv) data).
  destruct (traverse_returns _ _ (analysis_of tv) data) as [ha Hha].
  { eapply Forall_impl; [|exact Hdata]. cbv beta.
    intros d0 [_ Ha]. now apply analysis_of_returns. }
  rewrite Hha. cbn [bind].
  assert (Hnd : NoDup (map HoldingAnalysis.ticker ha)).
  { apply traverse_inv in Hha.
    assert (Hinv := Forall2_impl (analysis_of_inv tv) Hha). cbv beta in Hinv.
    erewrite Forall2_map_eq; [exact Hnd'|].
    eapply Forall2_impl; [|exact Hinv]. cbv beta. tauto. }
  destruct (_compute_portfolio_returns_ok ha portfolio Hnd) as [pr ->]. cbn [bind].
  assert (Htc : 0 < tc).
  { subst tc. apply sum_pos.
    - subst data. discriminate.
    - apply Forall_map. eapply Forall_impl; [|exact Hdata]. cbv beta.
      intros d0 [Hq Ha]. nra. }
  pose proof total_return_positive as Hpos.
  rewrite (Hpos tc tv Htc). cbn [bind].
  destruct (annualized_return_one ((tv - tc) / tc * 100)) as [ar ->]. cbn [bind].
  destruct (sharpe_ratio_returns pr (2 # 100)) as [sr ->]. cbn [bind].
  destruct (_compute_max_drawdown_ok ha portfolio Hnd) as [mdd ->]. cbn [bind].
  assert (Hb : returns (_compute_benchmark_total_return self benchmark)).
  { destruct (_compute_benchmark_total_return_cases benchmark) as [Hshort Hlong].
    destruct (get_historical_prices self benchmark) as [|p0 [|p1 ps]] eqn:Ep.
    - rewrite Hshort by (cbn; lia). eexists. reflexivity.
    - rewrite Hshort by (cbn; lia). eexists. reflexivity.
    - rewrite (Hlong p0 (p1 :: ps) eq_refl) by discriminate.
      rewrite Hpos by (apply (Hbench p0 (p1 :: ps) eq_refl); discriminate).
      eexists. reflexivity. }
  destruct Hb as [btr ->]. cbn [bind]. eexists. reflexivity.
Qed.

End Analyzer_facts.

Lemma analyze_weights_sum_witness :
  exists res,
    analyze Sample.sqrtQ Sample.powQ Sample.market Sample.partial_portfolio "SPY" = Ok res
    /\ 0 < AnalysisResult.total_value res
    /\ sum (map HoldingAnalysis.weight_pct (AnalysisResult.holdings_analysis res)) == 100.
Proof.
  destruct (analyze Sample.sqrtQ Sample.powQ Sample.market Sample.partial_portfolio "SPY")
    as [res|e] eqn:E; [|vm_compute in E; discriminate].
  exists res. split; [reflexivity|].
  destruct (analyze_weights_sum _ _ _ _ _ _ E) as (Hsum & _).
  assert (Hpos : 0 < AnalysisResult.total_value res).
  { assert (R := E). vm_compute in R. injection R as <-. vm_compute. reflexivity. }
  split; [exact Hpos | exact (proj1 (Hsum Hpos))].
Defined.

Lemma analyze_unresolved_prices_witness :
  (forall h, In h (Portfolio.holdings Sample.portfolio) ->
     get_current_price Sample.silent_market (Holding.ticker h) = None)
  /\ analyze Sample.sqrtQ Sample.powQ Sample.silent_market Sample.portfolio "SPY" =
       Ok (AnalysisResult.make "Test Portfolio" 0
             (sum (map (fun h => Holding.quantity h * Holding.avg_cost h)
                     (Portfolio.holdings Sample.portfolio)))
             0 0 (Fin 0) (Fin 0) (Fin 0) (Fin 0) (Fin 0) "USD" [] "SPY" None).
Proof.
  assert (H : forall h, In h (Portfolio.holdings Sample.portfolio) ->
                get_current_price Sample.silent_market (Holding.ticker h) = None)
    by reflexivity.
  split; [exact H|].
  exact (proj1 (analyze_unresolved_prices Sample.sqrtQ Sample.powQ Sample.silent_market
                  Sample.portfolio "SPY") H).
Defined.

Lemma analyze_returns_witness :
  returns (analyze Sample.sqrtQ Sample.powQ Sample.market Sample.partial_portfolio "SPY").
Proof.
  apply analyze_returns.
  - repeat constructor.
  - repeat constructor; cbn; intuition discriminate.
  - intros first rest H _. vm_compute in H. injection H as <- _. reflexivity.
Defined.


(** C6.  [analyze] is meant never to raise on a portfolio whose
    market data is merely missing in places.  It does on a portfolio
    that holds one ticker in two lots: [all_prices] has one column for
    the ticker, [weights] one entry for each lot, and [DataFrame.dot]
    refuses the two shapes.  Here the third holding has no price and
    is left out; the two lots of AAPL have a price and a history. *)
Theorem analyze_two_lots_raises (sqrtQ : Q -> Q) (powQ : Q -> Q -> Q) :
  analyze sqrtQ powQ Sample.market Sample.two_lots_portfolio "SPY"
  = Raise (ValueError "Dot product shape mismatch").
Proof. vm_compute. reflexivity. Qed.

Module Binary64_facts.
Import PrimFloat.

(** In binary64 too, [total_return(100, 120)] is 20.0 and
    [total_return(100, 80)] is -20.0, bit for bit. *)
Example total_return_binary64 :
  Binary64.total_return 100%float 120%float = Ok 20%float
  /\ Binary64.total_return 100%float 80%float = Ok (-20)%float.
Proof. split; vm_compute; reflexivity. Qed.

End Binary64_facts.

(** ** core/rebalancer.py: the orders and the totals *)

Import Rebalancer.

Section Rebalancer_more.
Variable target_weights : list (string * Q).
Variables total_value tolerance tax_rate : Q.

Abbreviation body' := (loop_body target_weights total_value tolerance tax_rate).
Abbreviation run' := (loop target_weights total_value tolerance tax_rate).

(** What one iteration does to the order list and to the two totals. *)
Lemma loop_body_totals (st st' : locals) (h : HoldingAnalysis.t) :
  body' st h = Ok st' ->
  (emits_order target_weights total_value tolerance h = false /\ st' = st) \/
  (emits_order target_weights total_value tolerance h = true /\
   ~ HoldingAnalysis.current_price h == 0 /\
   exists o, order_of target_weights total_value h o /\
     orders st' = orders st ++ [o] /\
     let amount := inject_Z (shares target_weights total_value h)
                   * HoldingAnalysis.current_price h in
     ((0 < diff_value target_weights total_value h /\
       RebalanceOrder.action o = "BUY" /\
       RebalanceOrder.estimated_cost o = amount /\
       total_buy st' = total_buy st + amount /\ total_sell st' = total_sell st)
      \/
      (diff_value target_weights total_value h <= 0 /\
       RebalanceOrder.action o = "SELL" /\
       RebalanceOrder.estimated_cost o = - amount /\
       total_buy st' = total_buy st /\ total_sell st' = total_sell st + amount))).
Proof.
  unfold loop_body, emits_order, shares.
  destruct (Qle_bool (Qabs (diff_pct target_weights h)) tolerance) eqn:Eband;
    cbn [negb andb].
  - intros H; inversion H; auto.
  - destruct (truediv _ _) as [q|e] eqn:Ediv; cbn [bind]; [|discriminate].
    apply truediv_inv in Ediv. destruct Ediv as [Hprice ->].
    destruct (Qfloor _ =? 0)%Z eqn:Eq; cbn [negb andb].
    + intros H; inversion H; auto.
    + destruct (Qlt_bool 0 (diff_value target_weights total_value h)) eqn:Edir;
        intros H; inversion H; subst; clear H; right; (split; [reflexivity|]);
        (split; [assumption|]); eexists; (split; [|split; [reflexivity|]]).
      * unfold order_of, shares; cbn. rewrite Edir. auto.
      * cbv zeta. left. apply Qlt_bool_iff in Edir. cbn [RebalanceOrder.action
          RebalanceOrder.estimated_cost total_buy total_sell]. auto.
      * unfold order_of, shares; cbn. rewrite Edir. auto.
      * cbv zeta. right. apply Qlt_bool_false in Edir. cbn [RebalanceOrder.action
          RebalanceOrder.estimated_cost total_buy total_sell]. auto.
Qed.

Lemma loop_trace (hs : list HoldingAnalysis.t) (st : locals) :
  run' initial hs = Ok st ->
  Forall2 (emitted target_weights total_value)
    (filter (emits_order target_weights total_value tolerance) hs) (orders st)
  /\ total_buy st == sum (map RebalanceOrder.estimated_cost (filter is_buy (orders st)))
  /\ total_sell st == - sum (map RebalanceOrder.estimated_cost (filter is_sell (orders st))).
Proof.
  intros Hrun.
  set (I := fun (done : list HoldingAnalysis.t) (st : locals) =>
      Forall2 (emitted target_weights total_value)
        (filter (emits_order target_weights total_value tolerance) done)
        (orders st)
      /\ total_buy st == sum (map RebalanceOrder.estimated_cost (filter is_buy (orders st)))
      /\ total_sell st
         == - sum (map RebalanceOrder.estimated_cost (filter is_sell (orders st)))).
  change (I ([] ++ hs) st).
  apply (loop_ind target_weights total_value tolerance tax_rate I) with (st := initial);
    [| | exact Hrun].
  - intros done st0 h st1 Hdone Hbody. unfold I in Hdone |- *.
    destruct Hdone as (Hord & Hbuy & Hsell). rewrite filter_snoc.
    destruct (loop_body_totals st0 st1 h Hbody)
      as [[Hemit ->]|(Hemit & Hprice & o & Hof & Ho & Hcase)]; rewrite Hemit.
    + rewrite app_nil_r. auto.
    + rewrite Ho, !filter_snoc, !map_app. cbv zeta in Hcase.
      destruct Hcase as [(Hdv & Ha & Hc & Hb & Hs)|(Hdv & Ha & Hc & Hb & Hs)].
      * assert (Eb : is_buy o = true) by (unfold is_buy; now rewrite Ha).
        assert (Es : is_sell o = false) by (unfold is_sell; now rewrite Ha).
        rewrite Eb, Es, app_nil_r. cbn [map]. rewrite sum_snoc, Hb, Hs, Hc.
        split; [|split; [rewrite Hbuy; reflexivity | exact Hsell]].
        apply Forall2_app; [exact Hord|]. constructor; [|constructor].
        split; [exact Hof|]. split; [exact Hprice|].
        apply Qlt_bool_iff in Hdv. now rewrite Hdv.
      * assert (Eb : is_buy o = false) by (unfold is_buy; now rewrite Ha).
        assert (Es : is_sell o = true) by (unfold is_sell; now rewrite Ha).
        rewrite Eb, Es, app_nil_r. cbn [map]. rewrite sum_snoc, Hb, Hs, Hc.
        split; [|split; [exact Hbuy | rewrite Hsell; ring]].
        apply Forall2_app; [exact Hord|]. constructor; [|constructor].
        split; [exact Hof|]. split; [exact Hprice|].
        apply Qlt_bool_false in Hdv. now rewrite Hdv.
  - unfold I. cbn. repeat split; try constructor.
Qed.

End Rebalancer_more.

Lemma rebalance_trace
  (target_weights : list (string * Q)) (total_value tolerance tax_rate : Q)
  (holdings : list HoldingAnalysis.t) (res : RebalanceResult.t) :
  rebalance target_weights total_value tolerance tax_rate holdings = Ok res ->
  Forall2 (emitted target_weights total_value)
    (filter (emits_order target_weights total_value tolerance) holdings)
    (RebalanceResult.orders res)
  /\ RebalanceResult.total_buy_cost res ==
       sum (map RebalanceOrder.estimated_cost (filter is_buy (RebalanceResult.orders res)))
  /\ RebalanceResult.total_sell_proceeds res ==
       - sum (map RebalanceOrder.estimated_cost
                (filter is_sell (RebalanceResult.orders res)))
  /\ RebalanceResult.net_cost res =
       RebalanceResult.total_buy_cost res - RebalanceResult.total_sell_proceeds res.
Proof.
  unfold rebalance. intros H.
  destruct (loop _ _ _ _ initial holdings) as [st|e] eqn:Hrun; cbn [bind] in H;
    [|discriminate].
  inversion H; subst res; clear H. cbn.
  destruct (loop_trace _ _ _ _ _ _ Hrun) as (H1 & H2 & H3). auto.
Qed.

Lemma sum_app (xs ys : list Q) : sum (xs ++ ys) == sum xs + sum ys.
Proof.
  induction xs as [|x xs IH]; cbn [app].
  - unfold sum at 2. cbn. lra.
  - rewrite !sum_cons, IH. lra.
Qed.

Lemma sum_nonneg (xs : list Q) : Forall (fun x => 0 <= x) xs -> 0 <= sum xs.
Proof.
  induction 1 as [|x xs Hx _ IH]; [unfold sum; cbn; lra|].
  rewrite sum_cons. lra.
Qed.

Lemma Forall2_In_r (A B : Type) (R : A -> B -> Prop) (xs : list A) (ys : list B) (y : B) :
  Forall2 R xs ys -> In y ys -> exists x, In x xs /\ R x y.
Proof.
  induction 1 as [|a b xs ys Hab _ IH]; intros Hin; [destruct Hin|].
  destruct Hin as [<-|Hin].
  - exists a. split; [now left | exact Hab].
  - destruct (IH Hin) as (x & Hx & Hr). exists x. split; [now right | exact Hr].
Qed.

Lemma Forall2_In_l (A B : Type) (R : A -> B -> Prop) (xs : list A) (ys : list B) (x : A) :
  Forall2 R xs ys -> In x xs -> exists y, In y ys /\ R x y.
Proof.
  induction 1 as [|a b xs ys Hab _ IH]; intros Hin; [destruct Hin|].
  destruct Hin as [<-|Hin].
  - exists b. split; [now left | exact Hab].
  - destruct (IH Hin) as (y & Hy & Hr). exists y. split; [now right | exact Hr].
Qed.

(** X1.  Every order of a result is a BUY or a SELL, and its
    [estimated_cost] is, in absolute value, [quantity * current_price].
    [total_buy_cost] is the sum of the estimated costs of the BUY
    orders, [total_sell_proceeds] the sum of those of the SELL orders
    with the sign changed, and [net_cost] the sum of the estimated
    costs of all the orders.  When no price is negative the two totals
    are not negative, the cost of a BUY is at least 0 and that of a
    SELL at most 0. *)
Theorem rebalance_totals
  (target_weights : list (string * Q)) (total_value tolerance tax_rate : Q)
  (holdings : list HoldingAnalysis.t) (res : RebalanceResult.t) :
  rebalance target_weights total_value tolerance tax_rate holdings = Ok res ->
  Forall (fun o => (RebalanceOrder.action o = "BUY" \/ RebalanceOrder.action o = "SELL")
                   /\ Qabs (RebalanceOrder.estimated_cost o) ==
                        Qabs (inject_Z (RebalanceOrder.quantity o)
                              * RebalanceOrder.current_price o))
    (RebalanceResult.orders res)
  /\ RebalanceResult.total_buy_cost res ==
       sum (map RebalanceOrder.estimated_cost (filter is_buy (RebalanceResult.orders res)))
  /\ RebalanceResult.total_sell_proceeds res ==
       - sum (map RebalanceOrder.estimated_cost
                (filter is_sell (RebalanceResult.orders res)))
  /\ RebalanceResult.net_cost res ==
       sum (map RebalanceOrder.estimated_cost (RebalanceResult.orders res))
  /\ (Forall (fun h => 0 <= HoldingAnalysis.current_price h) holdings ->
      0 <= RebalanceResult.total_buy_cost res
      /\ 0 <= RebalanceResult.total_sell_proceeds res
      /\ Forall (fun o => if is_buy o then 0 <= RebalanceOrder.estimated_cost o
                          else RebalanceOrder.estimated_cost o <= 0)
           (RebalanceResult.orders res)).
Proof.
  intros H. destruct (rebalance_trace _ _ _ _ _ _ H) as (Htrace & Hbuy & Hsell & Hnet).
  set (os := RebalanceResult.orders res) in *.
  set (src := filter (emits_order target_weights total_value tolerance) holdings) in *.
  assert (Hact : Forall (fun o =>
             (RebalanceOrder.action o = "BUY" \/ RebalanceOrder.action o = "SELL")
             /\ Qabs (RebalanceOrder.estimated_cost o) ==
                  Qabs (inject_Z (RebalanceOrder.quantity o)
                        * RebalanceOrder.current_price o)) os).
  { clear -Htrace. induction Htrace as [|h o hs os' Hho _ IH]; constructor; [|exact IH].
    destruct Hho as ((_ & _ & Hp & Hq & Ha) & _ & Hc). rewrite Hc, Hp, Hq, Ha.
    destruct (Qlt_bool 0 _); split; auto; [reflexivity | apply Qabs_opp]. }
  split; [exact Hact|]. split; [exact Hbuy|]. split; [exact Hsell|].
  split.
  - rewrite Hnet, Hbuy, Hsell. clear -Hact.
    induction Hact as [|o os' [[Ha|Ha] _] _ IH]; cbn [filter map].
    + unfold sum; cbn; lra.
    + assert (Eb : is_buy o = true) by (unfold is_buy; now rewrite Ha).
      assert (Es : is_sell o = false) by (unfold is_sell; now rewrite Ha).
      rewrite Eb, Es. cbn [map]. rewrite !sum_cons. lra.
    + assert (Eb : is_buy o = false) by (unfold is_buy; now rewrite Ha).
      assert (Es : is_sell o = true) by (unfold is_sell; now rewrite Ha).
      rewrite Eb, Es. cbn [map]. rewrite !sum_cons. lra.
  - intros Hprice.
    assert (Hsign : Forall (fun o => if is_buy o then 0 <= RebalanceOrder.estimated_cost o
                                     else RebalanceOrder.estimated_cost o <= 0) os).
    { apply Forall_forall. intros o Ho.
      destruct (Forall2_In_r _ _ _ _ _ _ Htrace Ho) as (h & Hh & (_ & _ & _ & _ & Ha) & _ & Hc).
      apply filter_In in Hh. destruct Hh as [Hh _].
      rewrite Forall_forall in Hprice. specialize (Hprice h Hh).
      pose proof (shares_nonneg target_weights total_value h Hprice) as Hq.
      assert (0 <= inject_Z (shares target_weights total_value h)
                   * HoldingAnalysis.current_price h).
      { apply Qmult_le_0_compat; [|exact Hprice].
        change 0 with (inject_Z 0). now rewrite <- Zle_Qle. }
      unfold is_buy. rewrite Ha, Hc. destruct (Qlt_bool 0 _).
      - change (String.eqb "BUY" "BUY") with true. cbv iota. lra.
      - change (String.eqb "SELL" "BUY") with false. cbv iota. lra. }
    split; [|split; [|exact Hsign]].
    + rewrite Hbuy. apply sum_nonneg. apply Forall_map.
      apply Forall_forall. intros o Ho. apply filter_In in Ho. destruct Ho as [Ho Eb].
      rewrite Forall_forall in Hsign. specialize (Hsign o Ho). now rewrite Eb in Hsign.
    + rewrite Hsell.
      assert (sum (map RebalanceOrder.estimated_cost (filter is_sell os)) <= 0); [|lra].
      assert (Hs : Forall (fun x => x <= 0)
                     (map RebalanceOrder.estimated_cost (filter is_sell os))).
      { apply Forall_map. apply Forall_forall. intros o Ho.
        apply filter_In in Ho. destruct Ho as [Ho Es].
        rewrite Forall_forall in Hsign. specialize (Hsign o Ho).
        destruct (is_buy o) eqn:Eb; [|exact Hsign].
        unfold is_buy, is_sell in *. apply String.eqb_eq in Eb, Es. congruence. }
      clear -Hs. induction Hs as [|x xs Hx _ IH]; [unfold sum; cbn; lra|].
      rewrite sum_cons. lra.
Qed.







(** X4.  [rebalance] does not look at the sign of a price: a holding
    outside its band whose price is negative, with a gap that is not
    0, gets an order with a negative quantity. *)
Theorem rebalance_negative_price
  (target_weights : list (string * Q)) (total_value tolerance tax_rate : Q)
  (holdings : list HoldingAnalysis.t) (res : RebalanceResult.t) (h : HoldingAnalysis.t) :
  rebalance target_weights total_value tolerance tax_rate holdings = Ok res ->
  In h holdings ->
  ~ within_tolerance target_weights tolerance h ->
  HoldingAnalysis.current_price h < 0 ->
  ~ diff_value target_weights total_value h == 0 ->
  exists o, In o (RebalanceResult.orders res)
    /\ RebalanceOrder.ticker o = HoldingAnalysis.ticker h
    /\ (RebalanceOrder.quantity o < 0)%Z.
Proof.
  intros H Hin Hband Hp Hdv. destruct (rebalance_trace _ _ _ _ _ _ H) as (Htrace & _).
  assert (Hq : (shares target_weights total_value h < 0)%Z).
  { unfold shares.
    set (d := Qabs (diff_value target_weights total_value h)).
    set (p := HoldingAnalysis.current_price h) in *.
    assert (Hd : 0 < d).
    { subst d. pose proof (Qabs_nonneg (diff_value target_weights total_value h)).
      destruct (Qlt_le_dec (diff_value target_weights total_value h) 0) as [E|E].
      - rewrite Qabs_neg by lra. lra.
      - rewrite Qabs_pos by lra.
        destruct (Qeq_dec (diff_value target_weights total_value h) 0); [contradiction|lra]. }
    assert (Hneg : d / p < 0).
    { assert (Hdp : d == d / p * p) by (field; lra).
      generalize dependent (d / p). intros x Hx. nra. }
    pose proof (Qfloor_le (d / p)) as Hfl.
    rewrite Zlt_Qlt. change (inject_Z 0) with 0. lra. }
  assert (Hemit : emits_order target_weights total_value tolerance h = true).
  { unfold emits_order. apply andb_true_iff. split; apply negb_true_iff.
    - now apply Qle_bool_false.
    - apply Z.eqb_neq. lia. }
  assert (Hsrc : In h (filter (emits_order target_weights total_value tolerance) holdings))
    by (apply filter_In; now split).
  destruct (Forall2_In_l _ _ _ _ _ _ Htrace Hsrc) as (o & Ho & (Ht & _ & _ & Hqo & _) & _).
  exists o. split; [exact Ho|]. split; [exact Ht|]. now rewrite Hqo.
Qed.

Lemma dict_get_current_weights (hs : list HoldingAnalysis.t) (h : HoldingAnalysis.t) :
  NoDup (map HoldingAnalysis.ticker hs) -> In h hs ->
  dict_get (current_weights hs) (HoldingAnalysis.ticker h) 0 = HoldingAnalysis.weight_pct h.
Proof.
  induction hs as [|a hs IH]; intros Hnd Hin; [destruct Hin|].
  cbn [current_weights map dict_get]. cbn [map] in Hnd.
  inversion Hnd as [|? ? Hnotin Hnd']; subst.
  destruct Hin as [->|Hin].
  - now rewrite String.eqb_refl.
  - destruct (String.eqb (HoldingAnalysis.ticker a) (HoldingAnalysis.ticker h)) eqn:E.
    + apply String.eqb_eq in E. exfalso. apply Hnotin. rewrite E. now apply in_map.
    + now apply IH.
Qed.

(** X5.  Asking for the weights the holdings already have, with
    distinct tickers and a tolerance that is not negative, gives a
    result without orders, with net cost 0 and tax 0. *)
Theorem rebalance_to_current_weights
  (total_value tolerance tax_rate : Q) (holdings : list HoldingAnalysis.t) :
  NoDup (map HoldingAnalysis.ticker holdings) ->
  0 <= tolerance ->
  exists res,
    rebalance (current_weights holdings) total_value tolerance tax_rate holdings = Ok res
    /\ RebalanceResult.orders res = []
    /\ RebalanceResult.net_cost res == 0
    /\ RebalanceResult.estimated_tax res == 0.
Proof.
  intros Hnd Htol. unfold rebalance.
  rewrite (loop_within (current_weights holdings) total_value tolerance tax_rate
             initial holdings).
  - cbn [bind]. eexists. split; [reflexivity|]. cbn. repeat split; reflexivity.
  - apply Forall_forall. intros h Hin. unfold within_tolerance, diff_pct, target_pct.
    rewrite (dict_get_current_weights holdings h Hnd Hin).
    rewrite Qabs_pos; lra.
Qed.

(** ** utils/metrics.py: edges and invariances *)

Import Metrics.

Lemma cummax_from_Fin (m : Q) (xs : list Q) :
  cummax_from (Some (Fin m)) (map Fin xs) = map Fin (running_max m xs).
Proof.
  revert m. induction xs as [|x xs IH]; intros m; cbn [map cummax_from running_max is_nan];
    [reflexivity|].
  cbn [fltb]. destruct (Qlt_bool m x); cbn [map]; now rewrite IH.
Qed.

Lemma drawdowns_Fin (m : Q) (xs : list Q) :
  0 < m -> Forall (fun p => 0 < p) xs ->
  map2 (fun p c => fdiv (fsub p c) c) (map Fin xs) (map Fin (running_max m xs))
  = map Fin (drawdowns m xs).
Proof.
  unfold drawdowns. revert m. induction xs as [|x xs IH]; intros m Hm Hxs; [reflexivity|].
  inversion Hxs as [|? ? Hx Hrest]; subst.
  cbn [running_max map map2].
  assert (Hm' : 0 < (if Qlt_bool m x then x else m)) by (destruct (Qlt_bool m x); assumption).
  rewrite IH by assumption.
  f_equal. cbn [fsub fneg fadd]. rewrite fdiv_Fin by lra. reflexivity.
Qed.

Lemma drawdowns_range (m : Q) (xs : list Q) :
  0 < m -> Forall (fun p => 0 < p) xs ->
  Forall (fun d => -1 < d /\ d <= 0) (drawdowns m xs).
Proof.
  unfold drawdowns. revert m. induction xs as [|x xs IH]; intros m Hm Hxs; [constructor|].
  inversion Hxs as [|? ? Hx Hrest]; subst.
  cbn [running_max map2].
  set (c := if Qlt_bool m x then x else m).
  assert (Hc : 0 < c /\ x <= c).
  { subst c. destruct (Qlt_bool m x) eqn:E; [lra|]. apply Qlt_bool_false in E. lra. }
  constructor; [|apply IH; tauto].
  split.
  - apply Qlt_shift_div_l; lra.
  - apply Qle_shift_div_r; lra.
Qed.

Lemma drawdowns_zero (m : Q) (xs : list Q) :
  0 < m -> Forall (fun p => 0 < p) xs ->
  (Forall (fun d => d == 0) (drawdowns m xs) <-> never_falls_from m xs).
Proof.
  unfold drawdowns. revert m. induction xs as [|x xs IH]; intros m Hm Hxs.
  - cbn. split; auto.
  - inversion Hxs as [|? ? Hx Hrest]; subst.
    cbn [running_max map2 never_falls_from].
    destruct (Qlt_bool m x) eqn:E.
    + apply Qlt_bool_iff in E. split.
      * intros H. inversion H as [|? ? _ Htl]; subst.
        split; [lra|]. apply IH; assumption.
      * intros [_ H]. constructor; [field; lra|]. apply IH; assumption.
    + apply Qlt_bool_false in E. split.
      * intros H. inversion H as [|? ? Hd Htl]; subst.
        assert (Hxm : x == m).
        { assert (Hdm : (x - m) / m * m == x - m) by (field; lra).
          rewrite Hd in Hdm. lra. }
        split; [lra|]. apply (IH m Hm Hrest) in Htl.
        clear -Htl Hxm. destruct xs as [|y ys]; [exact I|].
        cbn in *. split; [lra | tauto].
      * intros [Hle H]. assert (Hxm : x == m) by lra.
        constructor; [rewrite Hxm; field; lra|].
        apply (IH m Hm Hrest).
        clear -H Hxm. destruct xs as [|y ys]; [exact I|].
        cbn in *. split; [lra | tauto].
Qed.

Lemma min_Fin (x : Q) (xs : list Q) :
  min (map Fin (x :: xs)) = Fin (qmin_from x xs).
Proof.
  unfold min. rewrite notna_Fin. cbn [map]. unfold qmin_from.
  revert x. induction xs as [|y ys IH]; intros x; cbn [map fold_left]; [reflexivity|].
  cbn [fltb]. destruct (Qlt_bool y x); apply IH.
Qed.

Lemma qmin_from_In (m : Q) (xs : list Q) :
  qmin_from m xs = m \/ In (qmin_from m xs) xs.
Proof.
  unfold qmin_from. revert m. induction xs as [|y ys IH]; intros m; cbn [fold_left];
    [now left|].
  destruct (Qlt_bool y m).
  - destruct (IH y) as [->|H]; [right; now left | right; now right].
  - destruct (IH m) as [->|H]; [now left | right; now right].
Qed.

Lemma qmin_from_le (m : Q) (xs : list Q) :
  qmin_from m xs <= m /\ forall x, In x xs -> qmin_from m xs <= x.
Proof.
  unfold qmin_from. revert m. induction xs as [|y ys IH]; intros m; cbn [fold_left].
  - split; [lra | intros x []].
  - destruct (Qlt_bool y m) eqn:E.
    + apply Qlt_bool_iff in E. destruct (IH y) as [H1 H2].
      split; [lra|]. intros x [<-|Hx]; [exact H1 | now apply H2].
    + apply Qlt_bool_false in E. destruct (IH m) as [H1 H2].
      split; [exact H1|]. intros x [<-|Hx]; [lra | now apply H2].
Qed.

(** X11.  On positive prices [max_drawdown] is a finite percentage
    above -100 and at most 0, and it is 0 exactly when the prices
    never fall. *)
Theorem max_drawdown_range (prices : list Q) :
  prices <> [] ->
  Forall (fun p => 0 < p) prices ->
  exists d,
    max_drawdown (map Fin prices) = Fin d
    /\ -100 < d /\ d <= 0
    /\ (d == 0 <-> nondecreasing prices).
Proof.
  intros Hne Hpos. destruct prices as [|x xs]; [contradiction|]. clear Hne.
  inversion Hpos as [|? ? Hx Hxs]; subst.
  unfold max_drawdown. cbn [map]. unfold cummax. cbn [cummax_from is_nan].
  rewrite cummax_from_Fin. cbn [map2].
  rewrite (drawdowns_Fin x xs Hx Hxs).
  cbn [fsub fneg fadd]. rewrite fdiv_Fin by lra.
  change (Fin ((x + - x) / x) :: map Fin (drawdowns x xs))
    with (map Fin ((x + - x) / x :: drawdowns x xs)).
  rewrite min_Fin. cbn [fmul].
  set (d0 := (x + - x) / x). set (ds := drawdowns x xs).
  assert (Hd0 : d0 == 0) by (subst d0; field; lra).
  pose proof (drawdowns_range x xs Hx Hxs) as Hrange. fold ds in Hrange.
  pose proof (drawdowns_zero x xs Hx Hxs) as Hzero. fold ds in Hzero.
  destruct (qmin_from_le d0 ds) as [Hle0 Hle].
  rewrite Forall_forall in Hrange.
  eexists. split; [reflexivity|].
  assert (Hlow : -1 < qmin_from d0 ds).
  { destruct (qmin_from_In d0 ds) as [->|Hin]; [lra | apply Hrange; exact Hin]. }
  split; [lra|]. split; [lra|].
  cbn [nondecreasing]. rewrite <- Hzero. split.
  - intros Hmin. apply Forall_forall. intros d Hd.
    specialize (Hle d Hd). specialize (Hrange d Hd). lra.
  - intros Hall. rewrite Forall_forall in Hall.
    destruct (qmin_from_In d0 ds) as [->|Hin]; [lra|].
    rewrite (Hall _ Hin). lra.
Qed.

Lemma running_max_spec (m : Q) (xs : list Q) (j : nat) (c : Q) :
  nth_error (running_max m xs) j = Some c ->
  (c = m \/ exists i, (i <= j)%nat /\ nth_error xs i = Some c)
  /\ m <= c
  /\ forall i p, (i <= j)%nat -> nth_error xs i = Some p -> p <= c.
Proof.
  revert m j. induction xs as [|x xs IH]; intros m j H.
  - destruct j; discriminate.
  - cbn [running_max] in H.
    assert (Hm' : ((if Qlt_bool m x then x else m) = m
                   \/ (if Qlt_bool m x then x else m) = x)
                  /\ m <= (if Qlt_bool m x then x else m)
                  /\ x <= (if Qlt_bool m x then x else m)).
    { destruct (Qlt_bool m x) eqn:E.
      - apply Qlt_bool_iff in E. split; [now right | lra].
      - apply Qlt_bool_false in E. split; [now left | lra]. }
    revert H Hm'. generalize (if Qlt_bool m x then x else m). intros m' H Hm'.
    destruct j as [|j]; cbn [nth_error] in H.
    + inversion H; subst c. split; [|split].
      * destruct Hm' as [[->| ->] _];
          [now left | right; exists 0%nat; split; [lia | reflexivity]].
      * tauto.
      * intros i p Hi Hp. assert (i = 0)%nat by lia. subst i.
        cbn in Hp. inversion Hp; subst. tauto.
    + destruct (IH m' j H) as (Hsrc & Hle & Hall). split; [|split].
      * destruct Hsrc as [->|(i & Hi & Hp)].
        -- destruct Hm' as [[->| ->] _];
             [now left | right; exists 0%nat; split; [lia | reflexivity]].
        -- right. exists (S i). split; [lia | exact Hp].
      * lra.
      * intros [|i] p Hi Hp; cbn [nth_error] in Hp.
        -- inversion Hp; subst. lra.
        -- apply (Hall i p); [lia | exact Hp].
Qed.

Lemma nth_error_map2 (A B C : Type) (f : A -> B -> C) (xs : list A) (ys : list B)
  (j : nat) :
  nth_error (map2 f xs ys) j =
    match nth_error xs j, nth_error ys j with
    | Some a, Some b => Some (f a b)
    | _, _ => None
    end.
Proof.
  revert ys j. induction xs as [|x xs IH]; intros [|y ys] [|j]; cbn [map2 nth_error];
    try reflexivity.
  - now destruct (nth_error xs j).
  - apply IH.
Qed.

Lemma running_max_length (m : Q) (xs : list Q) :
  List.length (running_max m xs) = List.length xs.
Proof.
  revert m. induction xs as [|x xs IH]; intros m; cbn [running_max List.length];
    [reflexivity | now rewrite IH].
Qed.

(** Each drawdown is the fall from one of the prices before it, or from
    the starting maximum, and no price before it gives a deeper one. *)
Lemma drawdowns_nth (m : Q) (xs : list Q) (j : nat) (p : Q) :
  0 < m -> Forall (fun p => 0 < p) xs ->
  nth_error xs j = Some p ->
  exists c,
    nth_error (drawdowns m xs) j = Some ((p - c) / c)
    /\ (c = m \/ exists i, (i <= j)%nat /\ nth_error xs i = Some c)
    /\ (p - c) / c <= (p - m) / m
    /\ forall i q, (i <= j)%nat -> nth_error xs i = Some q -> (p - c) / c <= (p - q) / q.
Proof.
  intros Hm Hxs Hp.
  destruct (nth_error (running_max m xs) j) as [c|] eqn:Ec.
  2:{ apply nth_error_None in Ec. rewrite running_max_length in Ec.
      assert (nth_error xs j <> None) by congruence.
      apply nth_error_Some in H. lia. }
  exists c. unfold drawdowns. rewrite nth_error_map2, Hp, Ec.
  destruct (running_max_spec m xs j c Ec) as (Hsrc & Hle & Hall).
  rewrite Forall_forall in Hxs.
  assert (Hppos : 0 < p) by (apply Hxs; eapply nth_error_In; exact Hp).
  assert (Hdrop : forall q, 0 < q -> q <= c -> (p - c) / c <= (p - q) / q).
  { intros q Hq Hqc. apply Qle_shift_div_r; [lra|].
    assert (E : (p - q) / q * c == ((p - q) * c) / q) by (field; lra).
    rewrite E. apply Qle_shift_div_l; [exact Hq|]. nra. }
  split; [reflexivity|]. split; [exact Hsrc|]. split.
  - now apply Hdrop.
  - intros i q Hi Hq. apply Hdrop; [|now apply (Hall i q)].
    apply Hxs. eapply nth_error_In. exact Hq.
Qed.

(** X12.  On positive prices [max_drawdown] is the worst fall from a
    price to a later one, in percent of the earlier: no pair of a
    price and a later price (or the same) falls further, and one pair
    falls exactly that far. *)
Theorem max_drawdown_worst_drop (prices : list Q) :
  prices <> [] ->
  Forall (fun p => 0 < p) prices ->
  exists d,
    max_drawdown (map Fin prices) = Fin d
    /\ (forall i j peak later,
          (i <= j)%nat ->
          nth_error prices i = Some peak -> nth_error prices j = Some later ->
          d <= (later - peak) / peak * 100)
    /\ (exists i j peak later,
          (i <= j)%nat
          /\ nth_error prices i = Some peak /\ nth_error prices j = Some later
          /\ d == (later - peak) / peak * 100).
Proof.
  intros Hne Hpos. destruct prices as [|x xs]; [contradiction|]. clear Hne.
  inversion Hpos as [|? ? Hx Hxs]; subst.
  unfold max_drawdown. cbn [map]. unfold cummax. cbn [cummax_from is_nan].
  rewrite cummax_from_Fin. cbn [map2].
  rewrite (drawdowns_Fin x xs Hx Hxs).
  cbn [fsub fneg fadd]. rewrite fdiv_Fin by lra.
  change (Fin ((x + - x) / x) :: map Fin (drawdowns x xs))
    with (map Fin ((x + - x) / x :: drawdowns x xs)).
  rewrite min_Fin. cbn [fmul].
  change ((x + - x) / x) with ((x - x) / x).
  set (d0 := (x - x) / x). set (ds := drawdowns x xs).
  destruct (qmin_from_le d0 ds) as [Hle0 Hle].
  eexists. split; [reflexivity|]. split.
  - intros i j peak later Hij Hi Hj.
    assert (Hgoal : qmin_from d0 ds <= (later - peak) / peak); [|lra].
    destruct j as [|j].
    + assert (i = 0)%nat by lia. subst i. cbn in Hi, Hj.
      inversion Hi; inversion Hj; subst. exact Hle0.
    + cbn [nth_error] in Hj.
      destruct (drawdowns_nth x xs j later Hx Hxs Hj) as (c & Hd & _ & Hstart & Hall).
      fold ds in Hd. apply nth_error_In in Hd. specialize (Hle _ Hd).
      destruct i as [|i].
      * cbn in Hi. inversion Hi; subst. lra.
      * cbn [nth_error] in Hi. specialize (Hall i peak ltac:(lia) Hi). lra.
  - destruct (qmin_from_In d0 ds) as [->|Hin].
    + exists 0%nat, 0%nat, x, x.
      split; [lia|]. split; [reflexivity|]. split; reflexivity.
    + apply In_nth_error in Hin. destruct Hin as [j Hj].
      assert (Hj' := Hj). unfold ds, drawdowns in Hj'. rewrite nth_error_map2 in Hj'.
      destruct (nth_error xs j) as [later|] eqn:El; [|discriminate]. clear Hj'.
      destruct (drawdowns_nth x xs j later Hx Hxs El) as (c & Hd & Hsrc & _).
      fold ds in Hd. rewrite Hj in Hd. inversion Hd as [Hd']. clear Hd.
      rewrite Hd'. destruct Hsrc as [->|(i & Hi & Hc)].
      * exists 0%nat, (S j), x, later.
        split; [lia|]. split; [reflexivity|]. split; [exact El | reflexivity].
      * exists (S i), (S j), c, later.
        split; [lia|]. split; [exact Hc|]. split; [exact El | reflexivity].
Qed.

Lemma sum_all_eq (xs : list Q) (c : Q) :
  (forall x, In x xs -> x == c) ->
  sum xs == inject_Z (Z.of_nat (List.length xs)) * c.
Proof.
  induction xs as [|x xs IH]; intros H.
  - change (0 == 0 * c). lra.
  - pose proof (H x (or_introl eq_refl)) as Hx.
    rewrite sum_cons, IH by (intros y Hy; apply H; now right).
    cbn [List.length]. rewrite Nat2Z.inj_succ, <- Z.add_1_r, inject_Z_plus.
    change (inject_Z 1) with 1. generalize dependent (inject_Z (Z.of_nat (List.length xs))).
    intros k _. nra.
Qed.

Lemma sum_all_zero (xs : list Q) :
  (forall x, In x xs -> x == 0) -> sum xs == 0.
Proof.
  intros H. rewrite (sum_all_eq xs 0 H). lra.
Qed.

Section Sharpe.
Variable sqrtQ : Q -> Q.

(** X10.  [sharpe_ratio] never raises: a volatility of 0 is caught by
    the test [vol < 1e-10] before the division.  It is 0 on the empty
    series, [nan] on a single observation, whose deviation is [nan],
    and 0 on two or more equal observations when the root of 0 is
    0. *)
Theorem sharpe_ratio_edges :
  (forall returns risk_free_rate, exists v,
      sharpe_ratio sqrtQ returns risk_free_rate = Ok v)
  /\ (forall risk_free_rate, sharpe_ratio sqrtQ [] risk_free_rate = Ok (Fin 0))
  /\ (forall x risk_free_rate, sharpe_ratio sqrtQ [Fin x] risk_free_rate = Ok NaN)
  /\ (forall (xs : list Q) (c risk_free_rate : Q),
        (forall q, q == 0 -> sqrtQ q == 0) ->
        (2 <= List.length xs)%nat ->
        (forall x, In x xs -> x == c) ->
        sharpe_ratio sqrtQ (map Fin xs) risk_free_rate = Ok (Fin 0)).
Proof.
  split; [|split; [reflexivity|split]].
  - intros returns risk_free_rate. apply sharpe_ratio_returns.
  - intros x risk_free_rate. reflexivity.
  - intros xs c risk_free_rate Hsqrt Hlen Hconst.
    unfold sharpe_ratio, volatility.
    destruct xs as [|x0 xs0] eqn:Exs; [cbn in Hlen; lia|]. rewrite <- Exs in *.
    assert (Hm : forall (A : Type) (a b : A),
               match map Fin xs with [] => a | _ :: _ => b end = b)
      by (intros; subst xs; reflexivity).
    rewrite !Hm. pose proof (std_finite sqrtQ xs Hlen) as Hstd. cbv zeta in Hstd.
    rewrite Hstd. cbn [np_sqrt]. change (Qlt_bool 252 0) with false. cbv iota.
    cbn [fmul fltb].
    set (n := List.length xs) in *.
    set (avg := sum xs / inject_Z (Z.of_nat n)).
    set (var := sum (map (fun v => (avg - v) * (avg - v)) xs) / inject_Z (Z.of_nat (n - 1))).
    assert (Hvar : var == 0).
    { subst var. assert (Hs : sum (map (fun v => (avg - v) * (avg - v)) xs) == 0).
      { apply sum_all_zero. intros y Hy. apply in_map_iff in Hy.
        destruct Hy as (v & <- & Hv).
        assert (Havg : avg == c).
        { subst avg. rewrite (sum_all_eq xs c Hconst). fold n. field.
          apply of_nat_nonzero. lia. }
        rewrite Havg, (Hconst v Hv). ring. }
      rewrite Hs. unfold Qdiv. ring. }
    assert (Hlt : sqrtQ var * sqrtQ 252 < 1 # 10000000000).
    { rewrite (Hsqrt var Hvar). rewrite Qmult_0_l. reflexivity. }
    apply Qlt_bool_iff in Hlt. now rewrite Hlt.
Qed.

End Sharpe.


(** X7.  [total_return] undoes growth: from a positive [initial] to
    [initial * (1 + rate / 100)] the return is [rate]. *)
Theorem total_return_of_growth (initial rate : Q) :
  0 < initial ->
  exists r, total_return initial (initial * (1 + rate / 100)) = Ok r /\ r == rate.
Proof.
  intros H. rewrite total_return_positive by exact H.
  eexists. split; [reflexivity|]. field. lra.
Qed.

(** X8.  For a positive [initial] and final values that are not
    negative, [total_return] is at least -100, grows with the final
    value, and gives the final value back as
    [initial * (1 + r / 100)]. *)
Theorem total_return_monotone (initial final final' : Q) :
  0 < initial -> 0 <= final -> final <= final' ->
  exists r r',
    total_return initial final = Ok r /\ total_return initial final' = Ok r'
    /\ -100 <= r /\ r <= r'
    /\ final == initial * (1 + r / 100).
Proof.
  intros Hi Hf Hle. rewrite !total_return_positive by exact Hi.
  eexists. eexists. split; [reflexivity|]. split; [reflexivity|].
  assert (Hinv : 0 < / initial) by now apply Qinv_lt_0_compat.
  assert (Hone : initial * / initial == 1) by (apply Qmult_inv_r; lra).
  split; [|split]; [| |field; lra]; unfold Qdiv;
    generalize dependent (/ initial); intros k Hk Hone; nra.
Qed.

Lemma sum_map_affine (k c : Q) (xs : list Q) :
  sum (map (fun v => k * v + c) xs)
  == k * sum xs + inject_Z (Z.of_nat (List.length xs)) * c.
Proof.
  induction xs as [|x xs IH].
  - change (0 == k * 0 + 0 * c). lra.
  - cbn [map List.length]. rewrite !sum_cons, IH.
    rewrite Nat2Z.inj_succ, <- Z.add_1_r, inject_Z_plus. change (inject_Z 1) with 1.
    ring.
Qed.

Lemma sum_scaled_pairs (k : Q) (l1 l2 : list Q) :
  Forall2 (fun a b => a == k * b) l1 l2 -> sum l1 == k * sum l2.
Proof.
  induction 1 as [|a b l1 l2 Hab _ IH].
  - change (0 == k * 0). lra.
  - rewrite !sum_cons, Hab, IH. ring.
Qed.

Lemma covariance_affine (k c : Q) (xs : list Q) :
  xs <> [] ->
  covariance (map (fun v => k * v + c) xs) xs == k * covariance xs xs.
Proof.
  intros Hne. unfold covariance. rewrite length_map.
  set (n := List.length xs).
  assert (Hn : ~ inject_Z (Z.of_nat n) == 0).
  { apply of_nat_nonzero. subst n. destruct xs; [contradiction | cbn; lia]. }
  assert (Hdev : Forall2 (fun a b => a == k * b)
                   (deviations n (map (fun v => k * v + c) xs)) (deviations n xs)).
  { unfold deviations. pose proof (sum_map_affine k c xs) as Hs. fold n in Hs.
    set (s' := sum (map (fun v => k * v + c) xs)) in *. set (s := sum xs) in *.
    set (N := inject_Z (Z.of_nat n)) in *. clearbody s' s N. rewrite map_map.
    clear Hne. induction xs as [|x xs IH]; cbn [map]; constructor; [|exact IH].
    rewrite Hs. field. exact Hn. }
  assert (Hprod : Forall2 (fun a b => a == k * b)
                    (map2 Qmult (deviations n (map (fun v => k * v + c) xs)) (deviations n xs))
                    (map2 Qmult (deviations n xs) (deviations n xs))).
  { generalize dependent (deviations n (map (fun v => k * v + c) xs)).
    generalize (deviations n xs). intros d l H.
    induction H as [|a b l1 l2 Hab _ IH]; cbn [map2]; constructor; [|exact IH].
    rewrite Hab. ring. }
  rewrite (sum_scaled_pairs k _ _ Hprod). unfold Qdiv. ring.
Qed.

(** X13.  The beta of [k * x + c] against a series [x] that is not
    constant is [k]. *)
Theorem beta_of_affine_image (k c : Q) (x : list Q) :
  nonconstant x ->
  feq (beta (map Fin (map (fun v => k * v + c) x)) (map Fin x)) (Fin k).
Proof.
  intros Hx. pose proof (nonconstant_length x Hx) as Hlen.
  pose proof (beta_finite (map (fun v => k * v + c) x) x) as H. cbv zeta in H.
  rewrite length_map, Nat.min_id in H. specialize (H Hlen).
  rewrite firstn_all in H.
  rewrite <- (length_map (fun v => k * v + c) x) in H at 1. rewrite firstn_all in H.
  eapply feq_trans; [exact H|].
  pose proof (variance_pos x Hx) as Hv.
  destruct (Qeq_bool (covariance x x) 0) eqn:E.
  - apply Qeq_bool_iff in E. lra.
  - cbn [feq]. rewrite covariance_affine by (intros ->; cbn in Hlen; lia).
    field. lra.
Qed.





(** X15.  [beta] cuts both series to the length of the shorter: what
    one series has beyond the length of the other does not change
    it. *)
Theorem beta_ignores_surplus (p b surplus : list npfloat) :
  List.length p = List.length b ->
  beta (p ++ surplus) b = beta p b /\ beta p (b ++ surplus) = beta p b.
Proof.
  intros Hlen. destruct p as [|p0 p], b as [|b0 b]; try discriminate.
  - split; [|reflexivity]. destruct surplus; reflexivity.
  - remember (p0 :: p) as ps. remember (b0 :: b) as bs.
    assert (Hp : ps <> []) by (subst ps; discriminate).
    assert (Hb : bs <> []) by (subst bs; discriminate).
    assert (Hps : ps ++ surplus <> []) by (subst ps; discriminate).
    assert (Hbs : bs ++ surplus <> []) by (subst bs; discriminate).
    rewrite (beta_nonempty (ps ++ surplus) bs Hps Hb).
    rewrite (beta_nonempty ps (bs ++ surplus) Hp Hbs).
    rewrite (beta_nonempty ps bs Hp Hb). cbv zeta.
    rewrite !length_app, Hlen.
    replace (Nat.min (List.length bs + List.length surplus) (List.length bs))
      with (List.length bs) by lia.
    replace (Nat.min (List.length bs) (List.length bs + List.length surplus))
      with (List.length bs) by lia.
    rewrite Nat.min_id.
    assert (Hf1 : firstn (List.length bs) (ps ++ surplus) = ps).
    { rewrite <- Hlen. rewrite firstn_app, Nat.sub_diag, firstn_all. cbn [firstn].
      apply app_nil_r. }
    assert (Hf2 : firstn (List.length bs) (bs ++ surplus) = bs).
    { rewrite firstn_app, Nat.sub_diag, firstn_all. cbn [firstn]. apply app_nil_r. }
    assert (Hf3 : firstn (List.length bs) ps = ps) by (rewrite <- Hlen; apply firstn_all).
    rewrite Hf1, Hf2, Hf3, firstn_all. split; reflexivity.
Qed.

(** X25.  [alpha] is the portfolio return less the risk-free rate at
    a beta of 0, the portfolio return less the benchmark return at a
    beta of 1, whatever the risk-free rate, and [nan] when beta is
    [nan]. *)
Theorem alpha_cases (portfolio_return benchmark_return risk_free_rate : Q) :
  feq (alpha (Fin portfolio_return) (Fin benchmark_return) (Fin 0) (Fin risk_free_rate))
      (Fin (portfolio_return - risk_free_rate))
  /\ feq (alpha (Fin portfolio_return) (Fin benchmark_return) (Fin 1) (Fin risk_free_rate))
         (Fin (portfolio_return - benchmark_return))
  /\ alpha (Fin portfolio_return) (Fin benchmark_return) NaN (Fin risk_free_rate) = NaN.
Proof.
  unfold alpha. cbn [fsub fadd fmul fneg feq].
  split; [ring|]. split; [ring | reflexivity].
Qed.

(** ** core/analyzer.py: the result, the frames and the benchmark *)

Import Pandas MarketDataProvider Analyzer.

Section Analyzer_more.
Variable sqrtQ : Q -> Q.
Variable powQ : Q -> Q -> Q.
Variable self : MarketDataProvider.t.

(** X20.  [_compute_benchmark_total_return] is 0 on fewer than two
    prices; on two or more it is the total return from the first to
    the last when the first is positive, and it raises the
    [ValueError] of [total_return] exactly when the first of two or
    more prices is not positive. *)
Theorem benchmark_total_return_domain (benchmark : string) :
  let prices := get_historical_prices self benchmark in
  ((List.length prices < 2)%nat ->
     _compute_benchmark_total_return self benchmark = Ok 0)
  /\ (forall first second rest, prices = first :: second :: rest ->
        (0 < snd first ->
         _compute_benchmark_total_return self benchmark
         = Ok ((snd (last prices first) - snd first) / snd first * 100))
        /\ (snd first <= 0 ->
            _compute_benchmark_total_return self benchmark
            = Raise (ValueError "Initial value must be positive")))
  /\ (raises (_compute_benchmark_total_return self benchmark) <->
      exists first second rest, prices = first :: second :: rest /\ snd first <= 0).
Proof.
  intros prices.
  destruct (_compute_benchmark_total_return_cases self benchmark) as [Hshort Hlong].
  fold prices in Hshort, Hlong.
  assert (Hcase : forall first second rest, prices = first :: second :: rest ->
            (0 < snd first ->
             _compute_benchmark_total_return self benchmark
             = Ok ((snd (last prices first) - snd first) / snd first * 100))
            /\ (snd first <= 0 ->
                _compute_benchmark_total_return self benchmark
                = Raise (ValueError "Initial value must be positive"))).
  { intros first second rest E.
    rewrite (Hlong first (second :: rest) E) by discriminate. split; intros H.
    - now apply total_return_positive.
    - now apply total_return_nonpositive. }
  split; [exact Hshort|]. split; [exact Hcase|].
  split.
  - intros [e He]. destruct prices as [|first [|second rest]] eqn:E.
    + rewrite Hshort in He by (cbn; lia). discriminate.
    + rewrite Hshort in He by (cbn; lia). discriminate.
    + exists first, second, rest. split; [reflexivity|].
      destruct (Qlt_le_dec 0 (snd first)) as [Hp|Hp]; [|exact Hp].
      destruct (Hcase first second rest eq_refl) as [Hok _].
      rewrite (Hok Hp) in He. discriminate.
  - intros (first & second & rest & E & Hle).
    destruct (Hcase first second rest E) as [_ Hr]. eexists. exact (Hr Hle).
Qed.

Lemma traverse_raises (A B : Type) (f : A -> result B) (xs : list A) (e : exn) :
  (forall x, In x xs -> returns (f x) \/ f x = Raise e) ->
  (exists x, In x xs /\ f x = Raise e) ->
  traverse f xs = Raise e.
Proof.
  induction xs as [|a xs IH]; intros Hall (x & Hin & Hx); [destruct Hin|].
  cbn [traverse].
  destruct (Hall a (or_introl eq_refl)) as [[b Hb]|Ha].
  - rewrite Hb. cbn [bind]. rewrite IH; [reflexivity | |].
    + intros y Hy. apply Hall. now right.
    + destruct Hin as [->|Hin]; [congruence|]. exists x. split; assumption.
  - now rewrite Ha.
Qed.

Lemma analysis_of_cases (total_value : Q) (d : _HoldingData) :
  (~ avg_cost d == 0 -> returns (analysis_of total_value d))
  /\ (avg_cost d == 0 -> analysis_of total_value d = Raise ZeroDivisionError).
Proof.
  unfold analysis_of. split; intros Ha.
  - destruct (Qlt_bool 0 total_value) eqn:E.
    + apply Qlt_bool_iff in E. rewrite truediv_ok by lra. cbn [bind].
      rewrite truediv_ok by exact Ha. cbn [bind]. eexists. reflexivity.
    + cbn [bind]. rewrite truediv_ok by exact Ha. cbn [bind]. eexists. reflexivity.
  - destruct (Qlt_bool 0 total_value) eqn:E.
    + apply Qlt_bool_iff in E. rewrite truediv_ok by lra. cbn [bind].
      now rewrite truediv_zero.
    + cbn [bind]. now rewrite truediv_zero.
Qed.

Lemma gather_In_data (hs : list Holding.t) (h : Holding.t) :
  In h hs -> has_price self h = true ->
  exists d, In d (gather self hs) /\ avg_cost d = Holding.avg_cost h.
Proof.
  induction hs as [|a hs IH]; intros Hin Hp; [destruct Hin|].
  cbn [gather]. destruct Hin as [->|Hin].
  - unfold has_price in Hp.
    destruct (get_current_price self (Holding.ticker h)) as [p|]; [|discriminate].
    eexists. split; [now left | reflexivity].
  - destruct (IH Hin Hp) as (d & Hd & Ha).
    destruct (get_current_price self (Holding.ticker a)); exists d; split; auto.
    now right.
Qed.

(** X17.  [analyze] divides by [avg_cost] for [return_pct] without a
    guard: a holding that has a price and an average cost of 0 makes it
    raise [ZeroDivisionError]. *)
Theorem analyze_zero_cost_raises (portfolio : Portfolio.t) (benchmark : string)
  (h : Holding.t) :
  In h (Portfolio.holdings portfolio) ->
  has_price self h = true ->
  Holding.avg_cost h == 0 ->
  analyze sqrtQ powQ self portfolio benchmark = Raise ZeroDivisionError.
Proof.
  intros Hin Hp Hz. unfold analyze, _gather_holdings_data.
  destruct (gather_In_data _ h Hin Hp) as (d & Hd & Ha).
  destruct (gather self (Portfolio.holdings portfolio)) as [|d0 ds] eqn:Eg; [destruct Hd|].
  remember (d0 :: ds) as data.
  rewrite (traverse_raises _ _ _ data ZeroDivisionError); [reflexivity| |].
  - intros x _. destruct (analysis_of_cases (sum (map market_value data)) x) as [H1 H2].
    destruct (Qeq_dec (avg_cost x) 0) as [E|E]; [right; now apply H2 | left; now apply H1].
  - exists d. split; [exact Hd|]. apply analysis_of_cases. now rewrite Ha.
Qed.

Lemma gather_spec (hs : list Holding.t) :
  Forall (fun d => (exists h0, In h0 hs
                      /\ ticker d = Holding.ticker h0 /\ name d = Holding.name h0
                      /\ quantity d = Holding.quantity h0
                      /\ avg_cost d = Holding.avg_cost h0)
                   /\ get_current_price self (ticker d) = Some (current_price d)
                   /\ sector d = get_sector self (ticker d)
                   /\ market_value d = quantity d * current_price d)
    (gather self hs).
Proof.
  induction hs as [|h hs IH]; cbn [gather]; [constructor|].
  assert (IH' : Forall (fun d => (exists h0, In h0 (h :: hs)
                      /\ ticker d = Holding.ticker h0 /\ name d = Holding.name h0
                      /\ quantity d = Holding.quantity h0
                      /\ avg_cost d = Holding.avg_cost h0)
                   /\ get_current_price self (ticker d) = Some (current_price d)
                   /\ sector d = get_sector self (ticker d)
                   /\ market_value d = quantity d * current_price d)
                  (gather self hs)).
  { eapply Forall_impl; [|exact IH]. cbv beta.
    intros d ((h0 & Hin & H) & H'). split; [|exact H'].
    exists h0. split; [now right | exact H]. }
  destruct (get_current_price self (Holding.ticker h)) as [p|] eqn:E; [|exact IH'].
  constructor; [|exact IH']. cbn. split; [|auto].
  exists h. split; [now left | auto].
Qed.

Lemma analysis_of_fields (total_value : Q) (d : _HoldingData) (h : HoldingAnalysis.t) :
  analysis_of total_value d = Ok h ->
  HoldingAnalysis.ticker h = ticker d
  /\ HoldingAnalysis.name h = name d
  /\ HoldingAnalysis.quantity h = quantity d
  /\ HoldingAnalysis.avg_cost h = avg_cost d
  /\ HoldingAnalysis.current_price h = current_price d
  /\ HoldingAnalysis.market_value h = market_value d
  /\ HoldingAnalysis.sector h = sector d
  /\ ~ avg_cost d == 0
  /\ HoldingAnalysis.return_pct h = (current_price d - avg_cost d) / avg_cost d * 100.
Proof.
  unfold analysis_of. intros H.
  apply bind_inv in H. destruct H as (w & Hw & H).
  apply bind_inv in H. destruct H as (r & Hr & H).
  apply truediv_inv in Hr. destruct Hr as [Ha ->].
  inversion H; subst h; clear H. cbn. repeat split. exact Ha.
Qed.



(** Where the fields of an analysed holding come from. *)
Lemma analyze_holdings (portfolio : Portfolio.t) (benchmark : string)
  (res : AnalysisResult.t) :
  analyze sqrtQ powQ self portfolio benchmark = Ok res ->
  Forall (fun h =>
            (exists h0, In h0 (Portfolio.holdings portfolio)
               /\ HoldingAnalysis.ticker h = Holding.ticker h0
               /\ HoldingAnalysis.name h = Holding.name h0
               /\ HoldingAnalysis.quantity h = Holding.quantity h0
               /\ HoldingAnalysis.avg_cost h = Holding.avg_cost h0)
            /\ get_current_price self (HoldingAnalysis.ticker h)
                 = Some (HoldingAnalysis.current_price h)
            /\ HoldingAnalysis.sector h = get_sector self (HoldingAnalysis.ticker h)
            /\ HoldingAnalysis.market_value h
                 = HoldingAnalysis.quantity h * HoldingAnalysis.current_price h
            /\ ~ HoldingAnalysis.avg_cost h == 0
            /\ HoldingAnalysis.return_pct h
                 = (HoldingAnalysis.current_price h - HoldingAnalysis.avg_cost h)
                   / HoldingAnalysis.avg_cost h * 100
            /\ HoldingAnalysis.weight_pct h
                 = (if Qlt_bool 0 (AnalysisResult.total_value res)
                    then HoldingAnalysis.market_value h
                         / AnalysisResult.total_value res * 100
                    else 0))
    (AnalysisResult.holdings_analysis res)
  /\ AnalysisResult.total_value res
     = sum (map HoldingAnalysis.market_value (AnalysisResult.holdings_analysis res)).
Proof.
  intros H.
  destruct (analyze_inv sqrtQ powQ self portfolio benchmark res H)
    as [[_ ->]|(data & Hg & _ & Htv & _ & Hha)]; [split; [constructor | reflexivity]|].
  pose proof (gather_spec (Portfolio.holdings portfolio)) as Hdata.
  unfold _gather_holdings_data in Hg. rewrite Hg in Hdata.
  split.
  - set (tv := AnalysisResult.total_value res) in *.
    clear -Hha Hdata. induction Hha as [|d h ds hs Hdh _ IH]; constructor.
    + inversion Hdata as [|? ? (Hsrc & Hp & Hs & Hmv) _]; subst.
      destruct (analysis_of_inv tv d h Hdh) as (_ & _ & _ & _ & Hw).
      destruct (analysis_of_fields tv d h Hdh)
        as (Ht & Hn & Hq & Ha & Hcp & Hm & Hsec & Hnz & Hr).
      rewrite Hw, Hr, Ht, Hn, Hq, Ha, Hcp, Hm, Hsec. auto 10.
    + apply IH. now inversion Hdata.
  - rewrite Htv. f_equal. symmetry. apply Forall2_map_eq.
    eapply Forall2_impl; [|exact Hha]. cbv beta.
    intros d h Hdh. now destruct (analysis_of_fields _ d h Hdh) as (_ & _ & _ & _ & _ & ? & _).
Qed.


(** *** The returns of the benchmark *)

Lemma map2_length (A B C : Type) (f : A -> B -> C) (xs : list A) (ys : list B) :
  List.length (map2 f xs ys) = Nat.min (List.length xs) (List.length ys).
Proof.
  revert ys. induction xs as [|x xs IH]; intros [|y ys]; try reflexivity.
  change (S (List.length (map2 f xs ys))
          = S (Nat.min (List.length xs) (List.length ys))).
  now rewrite IH.
Qed.

Lemma pct_change_values (xs ys : list (Z * Q)) :
  Forall (fun p => ~ snd p == 0) xs ->
  map2 (fun prev cur => fsub (fdiv cur prev) (Fin 1)) (values xs) (values ys)
  = map Fin (map2 (fun prev cur => cur / prev - 1) (map snd xs) (map snd ys)).
Proof.
  intros H. revert ys. induction H as [|x xs Hx _ IH]; intros [|y ys];
    cbn [values map map2]; try reflexivity.
  rewrite (fdiv_Fin (snd y) (snd x) Hx). f_equal. apply IH.
Qed.

(** X21.  On benchmark prices without a 0, [_get_benchmark_returns]
    is the series of [cur / prev - 1], finite values, one fewer than
    the prices and none for no price or a single one. *)
Theorem benchmark_returns_simple (benchmark : string) :
  Forall (fun p => ~ snd p == 0) (get_historical_prices self benchmark) ->
  _get_benchmark_returns self benchmark
    = map Fin (simple_returns (map snd (get_historical_prices self benchmark)))
  /\ List.length (_get_benchmark_returns self benchmark)
     = Nat.pred (List.length (get_historical_prices self benchmark)).
Proof.
  intros H. unfold _get_benchmark_returns.
  destruct (get_historical_prices self benchmark) as [|p ps]; [split; reflexivity|].
  assert (E : dropna (pct_change (values (p :: ps)))
              = map Fin (simple_returns (map snd (p :: ps)))).
  { unfold dropna, pct_change. cbn [values map simple_returns].
    change (map (fun p0 => Fin (snd p0)) ps) with (values ps).
    change (Fin (snd p) :: values ps) with (values (p :: ps)).
    unfold notna. cbn [filter is_nan negb]. fold (notna (map2 (fun prev cur =>
      fsub (fdiv cur prev) (Fin 1)) (values (p :: ps)) (values ps))).
    rewrite (pct_change_values (p :: ps) ps H). apply notna_Fin. }
  rewrite E. split; [reflexivity|].
  rewrite length_map. cbn [map simple_returns].
  rewrite map2_length. cbn [List.length Nat.pred]. rewrite length_map. lia.
Qed.

(** *** cli/commands.py: the analysis handed to the rebalancer *)




(** *** The shapes [DataFrame.dot] is given *)

Lemma dict_set_keys (V : Type) (d : list (string * V)) (k : string) (v : V) :
  map fst (dict_set d k v) = if dict_mem d k then map fst d else map fst d ++ [k].
Proof.
  induction d as [|[k' v'] d IH]; cbn [dict_set]; [reflexivity|].
  unfold dict_mem in *. cbn [existsb fst].
  destruct (String.eqb k' k) eqn:E; cbn [orb map fst].
  - reflexivity.
  - rewrite IH. destruct (existsb _ d); reflexivity.
Qed.

Lemma collect_prices_keys_set (hs : list HoldingAnalysis.t)
  (acc : list (string * list (Z * Q))) :
  NoDup (map fst acc) ->
  NoDup (map fst (collect_prices self hs acc))
  /\ (forall k, In k (map fst (collect_prices self hs acc)) <->
                In k (map fst acc)
                \/ In k (map HoldingAnalysis.ticker (filter (has_history self) hs))).
Proof.
  revert acc. induction hs as [|h hs IH]; intros acc Hnd; cbn [collect_prices filter map].
  - split; [exact Hnd | intros k; cbn [In]; tauto].
  - destruct (get_historical_prices self (HoldingAnalysis.ticker h)) as [|p ps] eqn:E.
    + assert (Eh : has_history self h = false) by (unfold has_history; now rewrite E).
      rewrite Eh. apply IH, Hnd.
    + assert (Eh : has_history self h = true) by (unfold has_history; now rewrite E).
      rewrite Eh. set (k := HoldingAnalysis.ticker h) in *.
      assert (Hkeys : forall k', In k' (map fst (dict_set acc k (p :: ps)))
                                 <-> In k' (map fst acc) \/ k = k').
      { intros k'. rewrite dict_set_keys. destruct (dict_mem acc k) eqn:Em.
        - apply dict_mem_In in Em. split; [tauto|]. intros [H| <-]; assumption.
        - rewrite in_app_iff. cbn [In]. tauto. }
      assert (Hnd' : NoDup (map fst (dict_set acc k (p :: ps)))).
      { rewrite dict_set_keys. destruct (dict_mem acc k) eqn:Em; [exact Hnd|].
        apply NoDup_app; [exact Hnd | repeat constructor; intros [] |].
        intros x Hx [<-|[]]. apply dict_mem_In in Hx. congruence. }
      destruct (IH _ Hnd') as [IH1 IH2]. split; [exact IH1|].
      intros k'. rewrite IH2, Hkeys. cbn [map In]. fold k. tauto.
Qed.

Lemma has_history_In (hs : list HoldingAnalysis.t) (h : HoldingAnalysis.t) :
  In (HoldingAnalysis.ticker h) (map HoldingAnalysis.ticker (filter (has_history self) hs))
  -> has_history self h = true.
Proof.
  intros H. apply in_map_iff in H. destruct H as (h' & Et & Hin).
  apply filter_In in Hin. destruct Hin as [_ Hh]. unfold has_history in *.
  now rewrite <- Et.
Qed.

(** The weights are those of the holdings that have a history, one for
    each, and the columns are their tickers, one for each ticker. *)
Lemma dot_shapes (hs : list HoldingAnalysis.t) :
  let all_prices := collect_prices self hs [] in
  let tickers := map HoldingAnalysis.ticker (filter (has_history self) hs) in
  weights_of hs all_prices
    = map (fun h => Fin (HoldingAnalysis.weight_pct h / 100)) (filter (has_history self) hs)
  /\ (List.length all_prices = List.length (weights_of hs all_prices) <-> NoDup tickers).
Proof.
  intros all_prices tickers.
  destruct (collect_prices_keys_set hs [] (NoDup_nil _)) as [Hnd Hkeys].
  fold all_prices in Hnd, Hkeys. fold tickers in Hkeys. cbn [map In] in Hkeys.
  assert (Hw : weights_of hs all_prices
               = map (fun h => Fin (HoldingAnalysis.weight_pct h / 100))
                   (filter (has_history self) hs)).
  { unfold weights_of. f_equal. apply filter_ext_in. intros h Hin.
    destruct (has_history self h) eqn:Eh.
    - apply dict_mem_In, Hkeys. right. apply in_map. apply filter_In. now split.
    - destruct (dict_mem all_prices (HoldingAnalysis.ticker h)) eqn:Em; [|reflexivity].
      apply dict_mem_In, Hkeys in Em. destruct Em as [[]|Em].
      apply has_history_In in Em. congruence. }
  split; [exact Hw|]. rewrite Hw, length_map.
  rewrite <- (length_map fst all_prices).
  rewrite <- (length_map HoldingAnalysis.ticker (filter (has_history self) hs)).
  fold tickers.
  assert (Hin1 : incl (map fst all_prices) tickers).
  { intros k Hk. apply Hkeys in Hk. tauto. }
  assert (Hin2 : incl tickers (map fst all_prices)).
  { intros k Hk. apply Hkeys. now right. }
  split.
  - intros Hlen. apply (NoDup_incl_NoDup Hnd); [lia | exact Hin1].
  - intros Hnd'. apply Nat.le_antisymm; now apply NoDup_incl_length.
Qed.

(** X22.  [_compute_max_drawdown] raises exactly when the frame of
    prices is not empty and two of the holdings that have a history
    share a ticker; [_compute_portfolio_returns] exactly when, besides,
    the frame of returns is not empty; and the exception is the shape
    mismatch of [DataFrame.dot], nothing else. *)
Theorem dot_shape_mismatch (hs : list HoldingAnalysis.t) (portfolio : Portfolio.t) :
  let price_df := frame_dropna (collect_prices self hs []) in
  let tickers := map HoldingAnalysis.ticker (filter (has_history self) hs) in
  (raises (_compute_max_drawdown self hs portfolio)
   <-> empty price_df = false /\ ~ NoDup tickers)
  /\ (raises (_compute_portfolio_returns self hs portfolio)
      <-> empty price_df = false
          /\ empty (frame_pct_change_dropna price_df) = false
          /\ ~ NoDup tickers)
  /\ (forall e,
        _compute_max_drawdown self hs portfolio = Raise e
        \/ _compute_portfolio_returns self hs portfolio = Raise e ->
        e = ValueError "Dot product shape mismatch").
Proof.
  intros price_df tickers.
  destruct (dot_shapes hs) as [_ Hshape]. fold tickers in Hshape.
  unfold _compute_max_drawdown, _compute_portfolio_returns, raises. fold price_df.
  assert (Hcols : List.length (columns price_df)
                  = List.length (collect_prices self hs [])).
  { subst price_df. unfold frame_dropna. cbn [columns]. apply length_map. }
  assert (Hnil : collect_prices self hs [] = [] -> empty price_df = true).
  { subst price_df. intros ->. reflexivity. }
  set (weights := weights_of hs (collect_prices self hs [])) in *.
  assert (Hdot : forall df, List.length (columns df) = List.length (columns price_df) ->
            (NoDup tickers -> exists v, dot df weights = Ok v)
            /\ (~ NoDup tickers ->
                dot df weights = Raise (ValueError "Dot product shape mismatch"))).
  { intros df Hdf. unfold dot. rewrite Hdf, Hcols.
    destruct (List.length (collect_prices self hs []) =? List.length weights)%nat eqn:E.
    - apply Nat.eqb_eq in E. split; [eauto|]. intros Hn. exfalso. apply Hn, Hshape, E.
    - apply Nat.eqb_neq in E. split; [|reflexivity]. intros Hn. exfalso.
      apply E, Hshape, Hn. }
  assert (Hdec : NoDup tickers \/ ~ NoDup tickers).
  { destruct (Nat.eq_dec (List.length (collect_prices self hs [])) (List.length weights))
      as [E|E]; [left; apply Hshape, E | right; intros Hn; apply E, Hshape, Hn]. }
  destruct (Hdot price_df eq_refl) as [Hok1 Hbad1].
  destruct (Hdot (frame_pct_change_dropna price_df) eq_refl) as [Hok2 Hbad2].
  clear Hdot Hshape Hcols.
  destruct (collect_prices self hs []) as [|kv all_prices] eqn:Ecp.
  - specialize (Hnil eq_refl). rewrite Hnil.
    split; [|split].
    + split; [intros [e H]; discriminate | intros [H _]; discriminate].
    + split; [intros [e H]; discriminate | intros [H _]; discriminate].
    + intros e [H|H]; discriminate.
  - clear Hnil. cbv beta iota zeta.
    change (frame_dropna (kv :: all_prices)) with price_df.
    change (weights_of hs (kv :: all_prices)) with weights.
    destruct (empty price_df) eqn:Ee.
    + split; [|split].
      * split; [intros [e H]; discriminate | intros [H _]; discriminate].
      * split; [intros [e H]; discriminate | intros [H _]; discriminate].
      * intros e [H|H]; discriminate.
    + destruct Hdec as [Hnd|Hnd].
      * destruct (Hok1 Hnd) as [v1 Hv1]. destruct (Hok2 Hnd) as [v2 Hv2].
        rewrite Hv1, Hv2. cbn [bind].
        split; [|split].
        -- split; [intros [e H]; discriminate | intros [_ H]; contradiction].
        -- split.
           ++ intros [e H]. destruct (empty (frame_pct_change_dropna price_df));
                discriminate.
           ++ intros (_ & _ & H). contradiction.
        -- intros e [H|H]; [discriminate|].
           destruct (empty (frame_pct_change_dropna price_df)); discriminate.
      * rewrite (Hbad1 Hnd), (Hbad2 Hnd). cbn [bind].
        split; [|split].
        -- split; [auto | intros _; eauto].
        -- split.
           ++ intros [e H]. destruct (empty (frame_pct_change_dropna price_df));
                [discriminate | auto].
           ++ intros (_ & -> & _). eauto.
        -- intros e [H|H]; [congruence|].
           destruct (empty (frame_pct_change_dropna price_df));
             [discriminate | congruence].
Qed.

(** *** A portfolio without price history *)

Lemma analyze_inv_risk (portfolio : Portfolio.t) (benchmark : string)
  (res : AnalysisResult.t) :
  analyze sqrtQ powQ self portfolio benchmark = Ok res ->
  AnalysisResult.holdings_analysis res <> [] ->
  exists portfolio_returns benchmark_total_ret,
    _compute_portfolio_returns self (AnalysisResult.holdings_analysis res) portfolio
      = Ok portfolio_returns
    /\ AnalysisResult.volatility_pct res
       = fmul (volatility sqrtQ portfolio_returns true) (Fin 100)
    /\ sharpe_ratio sqrtQ portfolio_returns (2 # 100)
       = Ok (AnalysisResult.sharpe_ratio res)
    /\ _compute_max_drawdown self (AnalysisResult.holdings_analysis res) portfolio
       = Ok (AnalysisResult.max_drawdown_pct res)
    /\ AnalysisResult.beta res
       = beta portfolio_returns (_get_benchmark_returns self benchmark)
    /\ _compute_benchmark_total_return self benchmark = Ok benchmark_total_ret
    /\ AnalysisResult.alpha_pct res
       = alpha (Fin (AnalysisResult.annualized_return_pct res)) (Fin benchmark_total_ret)
           (AnalysisResult.beta res) (Fin (2 # 100)).
Proof.
  unfold analyze. intros H.
  destruct (_gather_holdings_data self portfolio) as [|d ds] eqn:Eg.
  - inversion H; subst res; clear H. cbn. intros Hne. now contradiction Hne.
  - remember (d :: ds) as data.
    apply bind_inv in H. destruct H as (ha & Hha & H).
    apply bind_inv in H. destruct H as (pr & Hpr & H).
    apply bind_inv in H. destruct H as (tr & Htr & H).
    apply bind_inv in H. destruct H as (ar & Har & H).
    apply bind_inv in H. destruct H as (sr & Hsr & H).
    apply bind_inv in H. destruct H as (mdd & Hmdd & H).
    apply bind_inv in H. destruct H as (btr & Hbtr & H).
    inversion H; subst res; clear H. cbn. intros _.
    exists pr, btr. repeat (split; [assumption || reflexivity|]). reflexivity.
Qed.

Lemma collect_prices_no_history (hs : list HoldingAnalysis.t)
  (acc : list (string * list (Z * Q))) :
  Forall (fun h => get_historical_prices self (HoldingAnalysis.ticker h) = []) hs ->
  collect_prices self hs acc = acc.
Proof.
  induction 1 as [|h hs Hh _ IH]; cbn [collect_prices]; [reflexivity|].
  now rewrite Hh.
Qed.

(** X19.  When the provider has no price history for any holding, a
    result of [analyze] has volatility, Sharpe ratio, maximum drawdown
    and beta 0, and with holdings analysed its alpha is the annualized
    return less the risk-free rate 0.02. *)
Theorem analyze_without_history (portfolio : Portfolio.t) (benchmark : string)
  (res : AnalysisResult.t) :
  analyze sqrtQ powQ self portfolio benchmark = Ok res ->
  (forall h, In h (Portfolio.holdings portfolio) ->
     get_historical_prices self (Holding.ticker h) = []) ->
  feq (AnalysisResult.volatility_pct res) (Fin 0)
  /\ AnalysisResult.sharpe_ratio res = Fin 0
  /\ AnalysisResult.max_drawdown_pct res = Fin 0
  /\ AnalysisResult.beta res = Fin 0
  /\ (AnalysisResult.holdings_analysis res <> [] ->
      feq (AnalysisResult.alpha_pct res)
          (Fin (AnalysisResult.annualized_return_pct res - (2 # 100)))).
Proof.
  intros H Hnone.
  destruct (analyze_holdings portfolio benchmark res H) as [Hhs _].
  assert (Hcp : collect_prices self (AnalysisResult.holdings_analysis res) [] = []).
  { apply collect_prices_no_history. eapply Forall_impl; [|exact Hhs]. cbv beta.
    intros h ((h0 & Hin & Ht & _) & _). rewrite Ht. now apply Hnone. }
  destruct (AnalysisResult.holdings_analysis res) as [|h0 hs0] eqn:Eha.
  - destruct (analyze_inv sqrtQ powQ self portfolio benchmark res H)
      as [[_ ->]|(data & Hg & Hne & _ & _ & Hf2)].
    + cbn. repeat split; try reflexivity. intros Hn. now contradiction Hn.
    + exfalso. apply Hne. rewrite Eha in Hf2. now inversion Hf2.
  - rewrite <- Eha in *.
    assert (Hne : AnalysisResult.holdings_analysis res <> [])
      by (rewrite Eha; discriminate).
    destruct (analyze_inv_risk portfolio benchmark res H Hne)
      as (pr & btr & Hpr & Hvol & Hsr & Hmdd & Hbeta & _ & Halpha).
    unfold _compute_portfolio_returns in Hpr. rewrite Hcp in Hpr.
    unfold _compute_max_drawdown in Hmdd. rewrite Hcp in Hmdd.
    inversion Hpr; subst pr. inversion Hmdd as [Hm].
    cbn in Hvol, Hsr, Hbeta. inversion Hsr as [Hs].
    rewrite Hvol. split; [cbn; ring|]. split; [reflexivity|]. split; [reflexivity|].
    split; [exact Hbeta|]. intros _. rewrite Halpha, Hbeta.
    cbn [alpha fsub fadd fmul fneg feq]. ring.
Qed.

(** *** One holding through the frames *)

Lemma loc_In (s : list (Z * Q)) (l : Z) (v : Q) :
  NoDup (map fst s) -> In (l, v) s -> loc s l = Some v.
Proof.
  induction s as [|[l0 v0] s IH]; intros Hnd Hin; [destruct Hin|].
  cbn [map fst] in Hnd. inversion Hnd as [|? ? Hnotin Hnd']; subst.
  cbn [loc]. destruct Hin as [E|Hin].
  - inversion E; subst. now rewrite Z.eqb_refl.
  - destruct (l0 =? l)%Z eqn:E; [|now apply IH].
    apply Z.eqb_eq in E. subst l0. exfalso. apply Hnotin.
    change l with (fst (l, v)). now apply in_map.
Qed.

Lemma flat_map_singleton (A B : Type) (f : A -> list B) (g : A -> B) (xs : list A) :
  (forall x, In x xs -> f x = [g x]) -> flat_map f xs = map g xs.
Proof.
  induction xs as [|x xs IH]; intros H; cbn [flat_map map]; [reflexivity|].
  rewrite (H x (or_introl eq_refl)), IH; [reflexivity|].
  intros y Hy. apply H. now right.
Qed.

(** The frame of one series: a row for each of its prices. *)
Lemma frame_dropna_single (k : string) (s : list (Z * Q)) :
  NoDup (map fst s) ->
  frame_dropna [(k, s)] = mk_frame [k] (map (fun lv => (fst lv, [Fin (snd lv)])) s).
Proof.
  intros Hnd. unfold frame_dropna. cbn [map fst]. f_equal.
  apply flat_map_singleton. intros [l v] Hin. cbn [fst snd row_at].
  now rewrite (loc_In s l v Hnd Hin).
Qed.

Lemma map2_rows (w : Q) (xs ys : list (Z * Q)) :
  Forall (fun p => ~ snd p == 0) xs ->
  map (fun r => fsum (map2 fmul (snd r) [Fin w]))
    (filter (fun r : Z * list npfloat => negb (existsb is_nan (snd r)))
       (map2 (fun prev cur : Z * list npfloat =>
                (fst cur, map2 (fun a b => fsub (fdiv b a) (Fin 1)) (snd prev) (snd cur)))
          (map (fun lv => (fst lv, [Fin (snd lv)])) xs)
          (map (fun lv => (fst lv, [Fin (snd lv)])) ys)))
  = map (fun r => Fin (0 + r * w))
      (map2 (fun prev cur => cur / prev - 1) (map snd xs) (map snd ys)).
Proof.
  intros H. revert ys. induction H as [|x xs Hx _ IH]; intros [|y ys];
    cbn [map map2]; try reflexivity.
  cbn [fst snd map2]. rewrite (fdiv_Fin (snd y) (snd x) Hx).
  cbn [fsub fneg fadd filter existsb is_nan orb negb map snd]. rewrite IH.
  reflexivity.
Qed.

(** X23.  For a single holding, with a price history of distinct
    labels and without a 0, the portfolio returns are the day-over-day
    returns of its prices times [weight_pct / 100], and the maximum
    drawdown is that of its prices times [weight_pct / 100]; the sum
    of one product starts from 0. *)
Theorem single_holding_series (h : HoldingAnalysis.t) (portfolio : Portfolio.t) :
  let prices := get_historical_prices self (HoldingAnalysis.ticker h) in
  let weight := HoldingAnalysis.weight_pct h / 100 in
  NoDup (map fst prices) ->
  Forall (fun p => ~ snd p == 0) prices ->
  _compute_portfolio_returns self [h] portfolio
    = Ok (map (fun r => Fin (0 + r * weight)) (simple_returns (map snd prices)))
  /\ _compute_max_drawdown self [h] portfolio
     = Ok (max_drawdown (map (fun p => Fin (0 + p * weight)) (map snd prices))).
Proof.
  cbv zeta. intros Hnd Hnz.
  set (weight := HoldingAnalysis.weight_pct h / 100).
  destruct (get_historical_prices self (HoldingAnalysis.ticker h)) as [|p0 ps] eqn:Ep.
  { unfold _compute_portfolio_returns, _compute_max_drawdown. cbn [collect_prices].
    rewrite Ep. split; reflexivity. }
  assert (Hcp : collect_prices self [h] [] = [(HoldingAnalysis.ticker h, p0 :: ps)]).
  { cbn [collect_prices]. rewrite Ep. reflexivity. }
  assert (Hw : weights_of [h] [(HoldingAnalysis.ticker h, p0 :: ps)] = [Fin weight]).
  { unfold weights_of, dict_mem. cbn [filter existsb fst].
    rewrite String.eqb_refl. reflexivity. }
  unfold _compute_portfolio_returns, _compute_max_drawdown. rewrite Hcp.
  cbv beta iota zeta. rewrite Hw, (frame_dropna_single _ (p0 :: ps) Hnd).
  change (empty (mk_frame [HoldingAnalysis.ticker h]
                   (map (fun lv => (fst lv, [Fin (snd lv)])) (p0 :: ps)))) with false.
  cbv iota. split.
  - pose proof (map2_rows weight (p0 :: ps) ps Hnz) as Hrows.
    unfold frame_pct_change_dropna, empty, dot.
    cbn [columns rows List.length Nat.eqb map simple_returns].
    cbn [map] in Hrows.
    destruct (filter _ _) as [|r rs] eqn:Ef.
    + now rewrite <- Hrows.
    + now rewrite <- Hrows.
  - unfold dot. cbn [columns rows List.length Nat.eqb bind]. f_equal. f_equal.
    rewrite !map_map. apply map_ext. intros [l v]. reflexivity.
Qed.

End Analyzer_more.

(** ** core/analyzer.py: the weighted series of a portfolio *)

Section Frames.
Variable self : MarketDataProvider.t.

Lemma row_at_spec (data : list (string * list (Z * Q))) (l : Z) :
  row_at data l =
    if forallb (fun s => has_label s l) (map snd data)
    then Some (map (fun s => Fin (price_at s l)) (map snd data))
    else None.
Proof.
  induction data as [|[k s] data IH]; [reflexivity|].
  cbn [row_at map snd forallb]. unfold has_label at 1. unfold price_at at 1.
  rewrite IH. destruct (loc s l) as [v|]; [|reflexivity].
  cbn [andb]. destruct (forallb _ _); reflexivity.
Qed.

Lemma flat_map_filter (A B : Type) (p : A -> bool) (g : A -> B) (f : A -> list B)
  (xs : list A) :
  (forall x, f x = if p x then [g x] else []) ->
  flat_map f xs = map g (filter p xs).
Proof.
  intros H. induction xs as [|x xs IH]; cbn [flat_map filter]; [reflexivity|].
  rewrite H, IH. destruct (p x); reflexivity.
Qed.

Lemma frame_dropna_rows (data : list (string * list (Z * Q))) :
  frame_dropna data
  = mk_frame (map fst data)
      (map (fun l => (l, map (fun s => Fin (price_at s l)) (map snd data)))
         (common_labels (map snd data))).
Proof.
  unfold frame_dropna. f_equal. destruct data as [|[k s0] data]; [reflexivity|].
  remember ((k, s0) :: data) as d eqn:Ed.
  assert (Hc : common_labels (map snd d)
               = filter (fun l => forallb (fun s => has_label s l) (map snd d))
                   (map fst s0)) by (subst d; reflexivity).
  rewrite Hc. clear Hc Ed.
  induction s0 as [|[l v] s0 IH]; cbn [flat_map map filter fst]; [reflexivity|].
  rewrite IH, (row_at_spec d l).
  destruct (forallb _ _); reflexivity.
Qed.

Lemma collect_prices_items (hs : list HoldingAnalysis.t)
  (acc : list (string * list (Z * Q))) :
  NoDup (map fst acc ++ map HoldingAnalysis.ticker (filter (has_history self) hs)) ->
  collect_prices self hs acc
  = acc ++ map (fun h => (HoldingAnalysis.ticker h,
                          get_historical_prices self (HoldingAnalysis.ticker h)))
             (filter (has_history self) hs).
Proof.
  revert acc. induction hs as [|h hs IH]; intros acc Hnd; cbn [collect_prices filter];
    cbn [filter] in Hnd.
  - cbn [map]. now rewrite app_nil_r.
  - destruct (get_historical_prices self (HoldingAnalysis.ticker h)) as [|p ps] eqn:E.
    + assert (Eh : has_history self h = false) by (unfold has_history; now rewrite E).
      rewrite Eh in *. now apply IH.
    + assert (Eh : has_history self h = true) by (unfold has_history; now rewrite E).
      rewrite Eh in *. cbn [map] in Hnd |- *.
      pose proof (NoDup_remove_2 _ _ _ Hnd) as Hnotin.
      rewrite dict_set_absent
        by (intros Hin; apply Hnotin; apply in_or_app; now left).
      rewrite IH.
      * rewrite <- app_assoc. cbn [app]. now rewrite E.
      * rewrite map_app. cbn [map fst]. now rewrite <- app_assoc.
Qed.

Lemma dot_Fin (columns : list string) (rws : list (Z * list Q)) (ws : list Q) :
  List.length columns = List.length ws ->
  dot (mk_frame columns (map (fun r => (fst r, map Fin (snd r))) rws)) (map Fin ws)
  = Ok (map (fun r => Fin (sum (map2 Qmult (snd r) ws))) rws).
Proof.
  intros Hlen. unfold dot. cbn [Pandas.columns rows].
  rewrite length_map, Hlen, Nat.eqb_refl. f_equal.
  rewrite map_map. apply map_ext. intros [l vs]. cbn [fst snd].
  now rewrite (map2_Fin fmul Qmult), fsum_Fin.
Qed.

Lemma loc_Some_In (s : list (Z * Q)) (l : Z) (v : Q) :
  loc s l = Some v -> In (l, v) s.
Proof.
  induction s as [|[l0 v0] s IH]; cbn [loc]; [discriminate|].
  destruct (l0 =? l)%Z eqn:E.
  - apply Z.eqb_eq in E. intros H. inversion H; subst. now left.
  - intros H. right. now apply IH.
Qed.

Lemma common_labels_price (series : list (list (Z * Q))) (l : Z) (s : list (Z * Q)) :
  Forall (Forall (fun p => ~ snd p == 0)) series ->
  In l (common_labels series) -> In s series -> ~ price_at s l == 0.
Proof.
  intros Hnz Hl Hs. unfold common_labels in Hl.
  destruct series as [|s0 series']; [destruct Hl|].
  apply filter_In in Hl. destruct Hl as [_ Hall].
  rewrite forallb_forall in Hall. specialize (Hall s Hs).
  unfold has_label in Hall. unfold price_at.
  destruct (loc s l) as [v|] eqn:E; [|discriminate].
  apply loc_Some_In in E. rewrite Forall_forall in Hnz. specialize (Hnz s Hs).
  rewrite Forall_forall in Hnz. exact (Hnz (l, v) E).
Qed.

Lemma existsb_is_nan_Fin (xs : list Q) : existsb is_nan (map Fin xs) = false.
Proof. induction xs as [|x xs IH]; [reflexivity | exact IH]. Qed.

Lemma pct_change_row (series : list (list (Z * Q))) (prev cur : Z) :
  (forall s, In s series -> ~ price_at s prev == 0) ->
  map2 (fun a b => fsub (fdiv b a) (Fin 1))
    (map (fun s => Fin (price_at s prev)) series)
    (map (fun s => Fin (price_at s cur)) series)
  = map Fin (map (fun s => price_at s cur / price_at s prev - 1) series).
Proof.
  induction series as [|s series IH]; intros H; [reflexivity|].
  cbn [map map2]. rewrite (fdiv_Fin _ _ (H s (or_introl eq_refl))).
  rewrite IH by (intros s' Hs'; apply H; now right). reflexivity.
Qed.

Lemma pct_change_rows (series : list (list (Z * Q))) (labels rest : list Z) :
  (forall l s, In l labels -> In s series -> ~ price_at s l == 0) ->
  filter (fun r : Z * list npfloat => negb (existsb is_nan (snd r)))
    (map2 (fun prev cur : Z * list npfloat =>
             (fst cur, map2 (fun a b => fsub (fdiv b a) (Fin 1)) (snd prev) (snd cur)))
       (map (fun l => (l, map (fun s => Fin (price_at s l)) series)) labels)
       (map (fun l => (l, map (fun s => Fin (price_at s l)) series)) rest))
  = map (fun r : Z * list Q => (fst r, map Fin (snd r)))
      (map2 (fun prev cur =>
               (cur, map (fun s => price_at s cur / price_at s prev - 1) series))
         labels rest).
Proof.
  revert rest. induction labels as [|l labels IH]; intros [|c rest] H;
    cbn [map map2 filter]; try reflexivity.
  cbn [fst snd].
  rewrite (pct_change_row series l c) by (intros s Hs; apply H; [now left | exact Hs]).
  rewrite existsb_is_nan_Fin. cbn [negb]. f_equal.
  apply IH. intros l' s Hl Hs. apply H; [now right | exact Hs].
Qed.

(** X26.  When the holdings that have a price history have distinct
    tickers, [_compute_max_drawdown] is [max_drawdown] of the series
    that has, at every label of the first history that all histories
    share, the sum of the prices at that label times
    [weight_pct / 100]; and when no price is 0,
    [_compute_portfolio_returns] has, for every such label after the
    first, the sum of the returns [cur / prev - 1] of the holdings
    from the label before, times [weight_pct / 100].  Holdings
    without a history take no part. *)
Theorem weighted_series (hs : list HoldingAnalysis.t) (portfolio : Portfolio.t) :
  let held := filter (has_history self) hs in
  let series :=
    map (fun h => get_historical_prices self (HoldingAnalysis.ticker h)) held in
  let weights := map (fun h => HoldingAnalysis.weight_pct h / 100) held in
  let labels := common_labels series in
  NoDup (map HoldingAnalysis.ticker held) ->
  _compute_max_drawdown self hs portfolio
    = Ok (max_drawdown (map (fun l => Fin (portfolio_value_at series weights l)) labels))
  /\ (Forall (Forall (fun p => ~ snd p == 0)) series ->
      _compute_portfolio_returns self hs portfolio
      = Ok (map2 (fun prev cur => Fin (portfolio_return_between series weights prev cur))
              labels (tl labels))).
Proof.
  intros held series weights labels Hnd.
  pose proof (collect_prices_items hs [] Hnd) as Hcp. cbn [app] in Hcp.
  fold held in Hcp.
  destruct (dot_shapes self hs) as [Hw _]. fold held in Hw. rewrite Hcp in Hw.
  set (data := map (fun h => (HoldingAnalysis.ticker h,
                              get_historical_prices self (HoldingAnalysis.ticker h)))
                 held) in *.
  assert (Hseries : map snd data = series).
  { subst data series. rewrite map_map. reflexivity. }
  assert (Hweights : weights_of hs data = map Fin weights).
  { rewrite Hw. subst weights. now rewrite map_map. }
  assert (Hlen : List.length (map fst data) = List.length weights).
  { subst data weights. now rewrite !length_map. }
  pose proof (frame_dropna_rows data) as Hframe. rewrite Hseries in Hframe.
  fold labels in Hframe.
  unfold _compute_max_drawdown, _compute_portfolio_returns. rewrite Hcp.
  clear Hcp Hw Hnd. clearbody data weights. subst labels. clearbody series.
  set (labels := common_labels series) in *.
  destruct data as [|kv data'].
  { cbn [map] in Hseries. subst series.
    split; [reflexivity | intros _; reflexivity]. }
  cbv beta iota zeta. set (data := kv :: data') in *.
  rewrite Hweights, Hframe.
  assert (Hempty : forall rws : list (Z * list npfloat),
            empty (mk_frame (map fst data) rws)
            = match rws with [] => true | _ :: _ => false end)
    by (intros [|r rws]; reflexivity).
  rewrite !Hempty.
  assert (Hrows : map (fun l => (l, map (fun s => Fin (price_at s l)) series)) labels
                  = map (fun r : Z * list Q => (fst r, map Fin (snd r)))
                      (map (fun l => (l, map (fun s => price_at s l) series)) labels)).
  { rewrite map_map. apply map_ext. intros l. cbn [fst snd]. now rewrite map_map. }
  split.
  - destruct labels as [|l0 rest] eqn:El; [reflexivity|]. rewrite <- El in *.
    assert (Hne : match map (fun l => (l, map (fun s => Fin (price_at s l)) series)) labels
                  with [] => true | _ :: _ => false end = false)
      by (rewrite El; reflexivity).
    rewrite Hne, Hrows, (dot_Fin _ _ _ Hlen). cbn [bind]. f_equal. f_equal.
    rewrite map_map. reflexivity.
  - intros Hnz.
    assert (Hprice : forall l s, In l labels -> In s series -> ~ price_at s l == 0)
      by (intros l s Hl Hs; now apply (common_labels_price series l s Hnz)).
    destruct labels as [|l0 rest] eqn:El; [reflexivity|].
    cbn [map tl]. unfold frame_pct_change_dropna. cbn [columns rows]. rewrite Hempty.
    change ((l0, map (fun s => Fin (price_at s l0)) series)
            :: map (fun l => (l, map (fun s => Fin (price_at s l)) series)) rest)
      with (map (fun l => (l, map (fun s => Fin (price_at s l)) series)) (l0 :: rest)).
    rewrite (pct_change_rows series (l0 :: rest) rest Hprice).
    set (rws := map2 (fun prev cur =>
                        (cur, map (fun s => price_at s cur / price_at s prev - 1) series))
                  (l0 :: rest) rest).
    assert (Hres : map (fun r : Z * list Q => Fin (sum (map2 Qmult (snd r) weights))) rws
                   = map2 (fun prev cur =>
                             Fin (portfolio_return_between series weights prev cur))
                       (l0 :: rest) rest).
    { subst rws. generalize (l0 :: rest). intros ls. clear. revert ls.
      induction rest as [|c rest' IH]; intros [|l ls]; cbn [map2 map]; try reflexivity.
      now rewrite IH. }
    rewrite <- Hres. destruct rws as [|r rws']; [reflexivity|].
    cbn [map]. cbv iota.
    change ((fst r, map Fin (snd r))
            :: map (fun r0 : Z * list Q => (fst r0, map Fin (snd r0))) rws')
      with (map (fun r0 : Z * list Q => (fst r0, map Fin (snd r0))) (r :: rws')).
    now rewrite (dot_Fin _ _ _ Hlen).
Qed.

End Frames.

(** ** The theorems above on the sample data *)

Lemma rebalance_totals_witness :
  exists res,
    rebalance Sample.target_weights 3500 1 0 Sample.current_holdings = Ok res
    /\ RebalanceResult.net_cost res ==
         sum (map RebalanceOrder.estimated_cost (RebalanceResult.orders res)).
Proof.
  destruct (rebalance Sample.target_weights 3500 1 0 Sample.current_holdings)
    as [res|e] eqn:E; [|vm_compute in E; discriminate].
  exists res. split; [reflexivity|].
  destruct (rebalance_totals _ _ _ _ _ _ E) as (_ & _ & _ & H & _). exact H.
Defined.



Lemma rebalance_negative_price_witness :
  exists res,
    rebalance [("CL", 10)] 3500 1 0 [Sample.negative] = Ok res
    /\ exists o, In o (RebalanceResult.orders res)
         /\ RebalanceOrder.ticker o = "CL"
         /\ (RebalanceOrder.quantity o < 0)%Z.
Proof.
  destruct (rebalance [("CL", 10)] 3500 1 0 [Sample.negative])
    as [res|e] eqn:E; [|vm_compute in E; discriminate].
  exists res. split; [reflexivity|].
  apply (rebalance_negative_price _ _ _ _ _ _ Sample.negative E).
  - now left.
  - intros H. vm_compute in H. apply H. reflexivity.
  - reflexivity.
  - intros H. vm_compute in H. discriminate.
Defined.

Lemma rebalance_to_current_weights_witness :
  exists res,
    rebalance (current_weights Sample.current_holdings) 3500 1 0 Sample.current_holdings
      = Ok res
    /\ RebalanceResult.orders res = []
    /\ RebalanceResult.net_cost res == 0
    /\ RebalanceResult.estimated_tax res == 0.
Proof.
  apply (rebalance_to_current_weights 3500 1 0 Sample.current_holdings).
  - repeat constructor; cbn; intuition discriminate.
  - discriminate.
Defined.

Lemma rebalance_zero_price_raises_witness :
  rebalance Sample.weights_with_delisted 3500 1 0
    ([Sample.aapl] ++ Sample.delisted :: [Sample.msft])
  = Raise ZeroDivisionError.
Proof.
  apply rebalance_zero_price_raises.
  - intros h [<-|[]] _ H. vm_compute in H. discriminate.
  - intros H. vm_compute in H. apply H. reflexivity.
  - reflexivity.
Defined.

Lemma total_return_of_growth_witness :
  exists r, total_return 100 (100 * (1 + 20 / 100)) = Ok r /\ r == 20.
Proof. apply (total_return_of_growth 100 20). reflexivity. Defined.

Lemma total_return_monotone_witness :
  exists r r',
    total_return 100 80 = Ok r /\ total_return 100 120 = Ok r'
    /\ -100 <= r /\ r <= r'
    /\ 80 == 100 * (1 + r / 100).
Proof.
  apply (total_return_monotone 100 80 120); [reflexivity | discriminate | discriminate].
Defined.

Lemma max_drawdown_range_witness :
  exists d,
    max_drawdown (map Fin Sample.closes) = Fin d
    /\ -100 < d /\ d <= 0
    /\ (d == 0 <-> nondecreasing Sample.closes).
Proof.
  apply (max_drawdown_range Sample.closes); [discriminate | repeat constructor].
Defined.

Lemma max_drawdown_worst_drop_witness :
  exists d,
    max_drawdown (map Fin Sample.closes) = Fin d
    /\ (forall i j peak later,
          (i <= j)%nat ->
          nth_error Sample.closes i = Some peak ->
          nth_error Sample.closes j = Some later ->
          d <= (later - peak) / peak * 100)
    /\ (exists i j peak later,
          (i <= j)%nat
          /\ nth_error Sample.closes i = Some peak
          /\ nth_error Sample.closes j = Some later
          /\ d == (later - peak) / peak * 100).
Proof.
  apply (max_drawdown_worst_drop Sample.closes); [discriminate | repeat constructor].
Defined.

Lemma beta_of_affine_image_witness :
  feq (beta (map Fin (map (fun v => 2 * v + 1) Sample.daily_returns))
         (map Fin Sample.daily_returns))
      (Fin 2).
Proof.
  apply (beta_of_affine_image 2 1 Sample.daily_returns).
  exists (1 # 100), (-2 # 100). split; [now left|]. split; [right; now left|].
  discriminate.
Defined.

Lemma beta_ignores_surplus_witness :
  beta ([Fin 1; Fin 2] ++ [Fin 7]) [Fin 3; Fin 5] = beta [Fin 1; Fin 2] [Fin 3; Fin 5]
  /\ beta [Fin 1; Fin 2] ([Fin 3; Fin 5] ++ [Fin 7]) = beta [Fin 1; Fin 2] [Fin 3; Fin 5].
Proof. apply (beta_ignores_surplus [Fin 1; Fin 2] [Fin 3; Fin 5] [Fin 7]). reflexivity. Defined.

Lemma analyze_zero_cost_raises_witness :
  analyze Sample.sqrtQ Sample.powQ Sample.market Sample.gift_portfolio "SPY"
  = Raise ZeroDivisionError.
Proof.
  apply (analyze_zero_cost_raises Sample.sqrtQ Sample.powQ Sample.market
           Sample.gift_portfolio "SPY" Sample.gift).
  - right. now left.
  - reflexivity.
  - reflexivity.
Defined.


Lemma analyze_without_history_witness :
  exists res,
    analyze Sample.sqrtQ Sample.powQ Sample.spot_market Sample.portfolio "SPY" = Ok res
    /\ AnalysisResult.sharpe_ratio res = Fin 0
    /\ AnalysisResult.max_drawdown_pct res = Fin 0
    /\ AnalysisResult.beta res = Fin 0.
Proof.
  destruct (analyze Sample.sqrtQ Sample.powQ Sample.spot_market Sample.portfolio "SPY")
    as [res|e] eqn:E; [|vm_compute in E; discriminate].
  exists res. split; [reflexivity|].
  destruct (analyze_without_history _ _ _ _ _ _ E) as (_ & Hs & Hm & Hb & _).
  - reflexivity.
  - auto.
Defined.

Lemma benchmark_returns_simple_witness :
  _get_benchmark_returns Sample.market "SPY"
    = map Fin (simple_returns (map snd (get_historical_prices Sample.market "SPY")))
  /\ List.length (_get_benchmark_returns Sample.market "SPY")
     = Nat.pred (List.length (get_historical_prices Sample.market "SPY")).
Proof.
  apply (benchmark_returns_simple Sample.market "SPY").
  repeat constructor; intros H; vm_compute in H; discriminate.
Defined.

Lemma single_holding_series_witness :
  exists rs,
    _compute_portfolio_returns Sample.market [Sample.aapl] Sample.portfolio = Ok rs
    /\ List.length rs = 2%nat.
Proof.
  destruct (single_holding_series Sample.market Sample.aapl Sample.portfolio) as [H _].
  - repeat constructor; cbn; intuition discriminate.
  - repeat constructor; intros H; vm_compute in H; discriminate.
  - eexists. split; [exact H | reflexivity].
Defined.


Lemma weighted_series_witness :
  exists rs,
    _compute_portfolio_returns Sample.market Sample.current_holdings Sample.portfolio
      = Ok rs
    /\ List.length rs = 2%nat.
Proof.
  destruct (weighted_series Sample.market Sample.current_holdings Sample.portfolio)
    as [_ H].
  - repeat constructor; cbn; intuition discriminate.
  - eexists. split; [apply H | reflexivity].
    repeat constructor; intros E; vm_compute in E; discriminate.
Defined.
